(** * Excel Auto-Pilot: the orchestration slice, embedded and verified

    The development follows the TypeScript sources:
    - [services/geminiService.ts]  (the script generator and its retry loop),
    - [services/pyodideService.ts] (the sandboxed executor),
    - [App.tsx]                    (usage tracker and pipeline handlers; the
      variant with [MAX_DAILY_USES = 50], [startTransformation] and
      [handleRetry]).

    JavaScript strings are sequences of UTF-16 code units, files of the
    sandbox live in a finite map, exceptions are an explicit result type and
    the React component state is threaded through a small state-and-exception
    monad. *)

From Stdlib Require Import NArith ZArith Ascii String DecimalString DecimalZ.
From stdpp Require Import gmap strings list.

(** ** JavaScript strings *)

Module Js.

(** A string value is its sequence of UTF-16 code units. *)
Definition jsstring := list N.

(** Source literals are written in UTF-8; [utf16] decodes them into code
    units (a code point above U+FFFF becomes a surrogate pair). *)
Definition cont (b : N) : N := N.land b 63.

Definition surrogates (cp : N) : list N :=
  let v := (cp - 65536)%N in
  [(55296 + N.shiftr v 10)%N; (56320 + N.land v 1023)%N].

Fixpoint decode (bs : list N) : list N :=
  match bs with
  | [] => []
  | b0 :: r0 =>
    if (b0 <? 128)%N then b0 :: decode r0
    else if (b0 <? 224)%N then
      match r0 with
      | b1 :: r1 => (N.shiftl (N.land b0 31) 6 + cont b1)%N :: decode r1
      | [] => [65533%N]
      end
    else if (b0 <? 240)%N then
      match r0 with
      | b1 :: b2 :: r2 =>
        (N.shiftl (N.land b0 15) 12 + N.shiftl (cont b1) 6 + cont b2)%N
          :: decode r2
      | _ => [65533%N]
      end
    else
      match r0 with
      | b1 :: b2 :: b3 :: r3 =>
        surrogates (N.shiftl (N.land b0 7) 18 + N.shiftl (cont b1) 12
                    + N.shiftl (cont b2) 6 + cont b3)%N ++ decode r3
      | _ => [65533%N]
      end
  end.

Definition utf16 (s : string) : jsstring :=
  decode (map N_of_ascii (list_ascii_of_string s)).
Arguments utf16 s%_string : simpl never.

(** The double quote, which a literal cannot hold. *)
Definition dquote : N := 34%N.

(** [s.startsWith(needle)]. *)
Fixpoint startsWith (needle s : jsstring) : bool :=
  match needle, s with
  | [], _ => true
  | _ :: _, [] => false
  | a :: needle', b :: s' => (a =? b)%N && startsWith needle' s'
  end.

(** [s.indexOf(needle)], [None] standing for [-1]. *)
Fixpoint indexOf (needle s : jsstring) : option nat :=
  if startsWith needle s then Some 0
  else match s with
       | [] => None
       | _ :: s' => S <$> indexOf needle s'
       end.

(** [s.includes(needle)]. *)
Definition includes (needle s : jsstring) : bool :=
  bool_decide (is_Some (indexOf needle s)).

(** White space and line terminators of ECMAScript, which [trim] strips. *)
Definition isLineTerminator (c : N) : bool :=
  bool_decide (c ∈ [10; 13; 8232; 8233]%N).

Definition isWhiteSpace (c : N) : bool :=
  bool_decide (c ∈ [9; 11; 12; 32; 160; 5760; 8239; 8287; 12288; 65279]%N)
  || ((8192 <=? c)%N && (c <=? 8202)%N)
  || isLineTerminator c.

Fixpoint trimStart (s : jsstring) : jsstring :=
  match s with
  | c :: s' => if isWhiteSpace c then trimStart s' else s
  | [] => []
  end.

Definition trimEnd (s : jsstring) : jsstring := reverse (trimStart (reverse s)).

Definition trim (s : jsstring) : jsstring := trimEnd (trimStart s).

(** [s.toLowerCase()]. Basic Latin capitals map to their small letters.
    U+0130 and U+212A are the only other code points whose lower case holds a
    Basic Latin letter, so they are mapped too; every remaining code unit is
    left in place, its lower case being outside Basic Latin as well. The
    strings compared against lower-cased text below are all Basic Latin, for
    which this agrees with the full Unicode mapping. *)
Definition lowerUnit (c : N) : list N :=
  if (65 <=? c)%N && (c <=? 90)%N then [(c + 32)%N]
  else if (c =? 304)%N then [105; 775]%N
  else if (c =? 8490)%N then [107%N]
  else [c].

Definition toLowerCase (s : jsstring) : jsstring := s ≫= lowerUnit.

(** [s.replace(/needle/g, '')] for a literal, non-empty [needle]: the
    occurrences are found left to right, each search resuming after the
    previous match. [skip] counts the code units of a match still to drop. *)
Fixpoint removeFrom (needle : jsstring) (skip : nat) (s : jsstring) : jsstring :=
  match s with
  | [] => []
  | c :: s' =>
    match skip with
    | S k => removeFrom needle k s'
    | O => if startsWith needle s
           then removeFrom needle (pred (length needle)) s'
           else c :: removeFrom needle 0 s'
    end
  end.

Definition removeAll (needle s : jsstring) : jsstring := removeFrom needle 0 s.

(** [String(n)] for an integral number: a sign and decimal digits, one
    code unit each. *)
Definition ofZ (z : Z) : jsstring :=
  map N_of_ascii (list_ascii_of_string (NilZero.string_of_int (Z.to_int z))).

Definition ofNat (n : nat) : jsstring := ofZ (Z.of_nat n).

End Js.

Import Js.

(** Results of code that may throw: [Ok v] is a normal completion, [Throw e]
    an exception carrying [e]. *)
Inductive Result (E A : Type) : Type :=
| Ok (v : A)
| Throw (e : E).
Arguments Ok {E A} v.
Arguments Throw {E A} e.

(** ** The script generator ([services/geminiService.ts]) *)

Module Gemini.

(** The values a property of a caught error is inspected as. *)
Inductive JsVal : Type :=
| VUndef
| VNum (z : Z)
| VStr (s : jsstring).

Definition truthy (v : JsVal) : bool :=
  match v with
  | VUndef => false
  | VNum z => negb (z =? 0)%Z
  | VStr s => negb (bool_decide (s = []))
  end.

(** [a || b] *)
Definition or_else (a b : JsVal) : JsVal := if truthy a then a else b.

(** [String(v)] *)
Definition toString (v : JsVal) : jsstring :=
  match v with
  | VUndef => utf16 "undefined"
  | VNum z => ofZ z
  | VStr s => s
  end.

(** [v === "literal"] *)
Definition strictEq (v : JsVal) (lit : jsstring) : bool :=
  match v with
  | VStr s => bool_decide (s = lit)
  | _ => false
  end.

Record Response : Type := { r_status : JsVal; r_code : JsVal }.

(** A thrown object, as far as the generator looks at it: [status], [code],
    [message] (undefined or a string), [response] (undefined or an object)
    and [e_json], the text [JSON.stringify] renders the object as. *)
Record ErrObject : Type := {
  e_status : JsVal;
  e_code : JsVal;
  e_message : option jsstring;
  e_response : option Response;
  e_json : jsstring
}.

(** What a [catch] clause receives: a string primitive or an object. *)
Inductive Thrown : Type :=
| ThrownString (s : jsstring)
| ThrownObject (o : ErrObject).

(** [new Error(msg)] *)
Definition newError (msg : jsstring) : Thrown :=
  ThrownObject {| e_status := VUndef; e_code := VUndef; e_message := Some msg;
                  e_response := None; e_json := utf16 "{}" |}.

(** [error.status], [error.code], [error.message] *)
Definition getStatus (error : Thrown) : JsVal :=
  match error with ThrownString _ => VUndef | ThrownObject o => e_status o end.

Definition getCode (error : Thrown) : JsVal :=
  match error with ThrownString _ => VUndef | ThrownObject o => e_code o end.

Definition getMessage (error : Thrown) : option jsstring :=
  match error with ThrownString _ => None | ThrownObject o => e_message o end.

(** [error.response && error.response.status] and the same for [code] *)
Definition responseField (f : Response -> JsVal) (error : Thrown) : JsVal :=
  match error with
  | ThrownString _ => VUndef
  | ThrownObject o => match e_response o with
                      | Some r => f r
                      | None => VUndef
                      end
  end.

(** [m || fallback] for a message that is undefined or a string *)
Definition messageOr (m : option jsstring) (fallback : jsstring) : jsstring :=
  match m with
  | Some (c :: s) => c :: s
  | _ => fallback
  end.

(** What one call of [ai.models.generateContent] does: it resolves with a
    response whose [text] is undefined or a string, or it rejects. The
    request is the same at every attempt, so the service is given by its
    outcome at each attempt number. *)
Inductive ServiceOutcome : Type :=
| Resolved (text : option jsstring)
| Rejected (error : Thrown).

Definition maxRetries : nat := 8.

Definition fence : jsstring := utf16 "```".
Definition fencePython : jsstring := utf16 "```python".

(** Capture group 1 of [text.match(/```python([\s\S]*?)```/)]: the match
    starts at the first [```python]; the lazy group stops at the first
    [```] after it. Were that closing fence missing, no later start could
    match either, a later [```python] needing a closing fence too. *)
Definition codeMatch (text : jsstring) : option jsstring :=
  i ← indexOf fencePython text;
  let rest := drop (i + length fencePython) text in
  j ← indexOf fence rest;
  Some (take j rest).

Definition stripFences (text : jsstring) : jsstring :=
  trim (removeAll fence (removeAll fencePython text)).

Definition emptyResponse : jsstring := utf16 "AIからの応答が空です。".

(** Lines 68-75: the body of [try] after the call has resolved. *)
Definition parseResponse (text : option jsstring) : Result Thrown jsstring :=
  match text with
  | None | Some [] => Throw (newError emptyResponse)
  | Some text =>
    match codeMatch text with
    | Some (c :: code) => Ok (trim (c :: code))
    | _ => Ok (stripFences text)
    end
  end.

Definition attemptOnce (o : ServiceOutcome) : Result Thrown jsstring :=
  match o with
  | Resolved text => parseResponse text
  | Rejected error => Throw error
  end.

(** Lines 81-83 *)
Definition statusOf (error : Thrown) : JsVal :=
  or_else (getStatus error) (responseField r_status error).

Definition codeOf (error : Thrown) : JsVal :=
  or_else (getCode error) (responseField r_code error).

Definition errorMsgOf (error : Thrown) : jsstring :=
  match error with
  | ThrownString s => s
  | ThrownObject o => messageOr (e_message o) (e_json o)
  end.

(** Lines 85-94 *)
Definition isRetryable (error : Thrown) : bool :=
  let status := statusOf error in
  let code := codeOf error in
  let errorMsg := errorMsgOf error in
  strictEq status (utf16 "UNAVAILABLE")
  || strictEq status (utf16 "RESOURCE_EXHAUSTED")
  || bool_decide (toString code = utf16 "503")
  || bool_decide (toString code = utf16 "429")
  || includes (utf16 "503") errorMsg
  || includes (utf16 "429") errorMsg
  || includes (utf16 "overloaded") (toLowerCase errorMsg)
  || includes (utf16 "unavailable") (toLowerCase errorMsg)
  || includes (utf16 "resource_exhausted") (toLowerCase errorMsg).

(** What the generator does to the outside, in order: a call of the service
    at an attempt, a retry notice handed to [onRetry], and a sleep
    [delay(Math.pow(1.8, attempt) * 1500 + Math.random() * 1000)], recorded
    by its attempt number. *)
Inductive Event : Type :=
| Call (attempt : nat)
| Notice (attempt : nat) (message : jsstring)
| Sleep (attempt : nat).

Definition retryNotice (attempt : nat) : jsstring :=
  utf16 "AIサーバーが混雑しています。再試行中 (" ++ ofNat (attempt + 1)
  ++ utf16 "/" ++ ofNat maxRetries ++ utf16 ")...".

(** How the [for] loop is left. *)
Inductive LoopExit : Type :=
| Returned (code : jsstring)
| Left (lastError : option Thrown).

(** Lines 57-106. [rounds] is the number of iterations the loop condition
    [attempt <= maxRetries] still lets through. *)
Fixpoint retryLoop (service : nat -> ServiceOutcome) (rounds attempt : nat)
    (lastError : option Thrown) : LoopExit * list Event :=
  match rounds with
  | O => (Left lastError, [])
  | S rounds' =>
    match attemptOnce (service attempt) with
    | Ok code => (Returned code, [Call attempt])
    | Throw error =>
      if isRetryable error && (attempt <? maxRetries)
      then
        let '(exit, events) :=
          retryLoop service rounds' (S attempt) (Some error) in
        (exit, Call attempt :: Notice (attempt + 1) (retryNotice attempt)
                 :: Sleep attempt :: events)
      else (Left (Some error), [Call attempt])
    end
  end.

(** [{"error"] and [{"error":] *)
Definition errorKey : jsstring :=
  utf16 "{" ++ [dquote] ++ utf16 "error" ++ [dquote].
Definition errorOpen : jsstring := errorKey ++ utf16 ":".

Fixpoint takeWhile (p : N -> bool) (s : jsstring) : jsstring :=
  match s with
  | c :: s' => if p c then c :: takeWhile p s' else []
  | [] => []
  end.

(** The longest prefix of [s] that ends with the code unit [c]. *)
Fixpoint upToLast (c : N) (s : jsstring) : option jsstring :=
  match s with
  | [] => None
  | x :: s' =>
    match upToLast c s' with
    | Some p => Some (x :: p)
    | None => if (x =? c)%N then Some [x] else None
    end
  end.

(** [s.match(/\{"error":.*\}/)], the whole match: at the leftmost
    [{"error":] that has a closing brace later on its line, up to the last
    such brace ([.] stops at line terminators and [*] is greedy). *)
Fixpoint matchErrorObject (s : jsstring) : option jsstring :=
  match s with
  | [] => None
  | _ :: s' =>
    if startsWith errorOpen s then
      match upToLast 125
              (takeWhile (fun c => negb (isLineTerminator c))
                         (drop (length errorOpen) s)) with
      | Some body => Some (errorOpen ++ body)
      | None => matchErrorObject s'
      end
    else matchErrorObject s'
  end.

Definition overloadMessage : jsstring :=
  utf16 "AIサーバーが現在非常に混み合っています。Google側の無料枠制限により発生しています。1〜2分待ってから、下の「再試行」ボタンを押してください。".

Definition quotaMessage : jsstring :=
  utf16 "APIの利用制限(Quota)に達しました。しばらく時間を置いてから再度お試しください。".

Section Generator.

(** [JSON.parse] is the platform's. [jsonErrorMessage j] stands for
    [JSON.parse(j).error?.message]: [Some m] when [j] parses and that
    property is a non-empty string [m], [None] when parsing throws or the
    property is missing or empty. *)
Variable jsonErrorMessage : jsstring -> option jsstring.

(** Lines 110-118: unwrap a structured payload embedded in the message. *)
Definition unwrapPayload (message : jsstring) : jsstring :=
  if includes errorKey message then
    match matchErrorObject message with
    | Some json => messageOr (jsonErrorMessage json) message
    | None => message
    end
  else message.

(** Lines 120-128: the message of the error finally thrown. *)
Definition classify (finalMessage : jsstring) : jsstring :=
  if includes (utf16 "overloaded") (toLowerCase finalMessage)
     || includes (utf16 "503") finalMessage
     || includes (utf16 "UNAVAILABLE") finalMessage
  then overloadMessage
  else if includes (utf16 "429") finalMessage
          || includes (utf16 "RESOURCE_EXHAUSTED") finalMessage
  then quotaMessage
  else utf16 "エラー: " ++ finalMessage.

(** Lines 108-128. Reading [message] of an undefined [lastError] is a
    [TypeError] of the engine; the loop never leaves [lastError] undefined
    (lemma [retryLoop_lastError]). *)
Definition finalError (lastError : option Thrown) : jsstring :=
  match lastError with
  | None =>
    utf16 "Cannot read properties of undefined (reading 'message')"
  | Some error =>
    classify (unwrapPayload
                (messageOr (getMessage error)
                           (utf16 "不明なエラーが発生しました。")))
  end.

(** The whole function. [apiKey] is [process.env.API_KEY]; the result is
    the script, or the message of the [Error] thrown, together with the
    events in the order they happened. *)
Definition generateExcelEditCode (apiKey : option jsstring)
    (service : nat -> ServiceOutcome) : Result jsstring jsstring * list Event :=
  match apiKey with
  | None | Some [] =>
    (Throw (utf16 "APIキーが設定されていません。Vercelの環境変数を確認してください。"), [])
  | Some _ =>
    match retryLoop service (S maxRetries) 0 None with
    | (Returned code, events) => (Ok code, events)
    | (Left lastError, events) => (Throw (finalError lastError), events)
    end
  end.

End Generator.

(** The number of service calls among the events. *)
Definition isCall (e : Event) : bool :=
  match e with Call _ => true | _ => false end.

Definition isSleep (e : Event) : bool :=
  match e with Sleep _ => true | _ => false end.

Definition calls (events : list Event) : nat :=
  length (List.filter isCall events).

Definition sleeps (events : list Event) : nat :=
  length (List.filter isSleep events).

End Gemini.

(** ** The sandboxed executor ([services/pyodideService.ts]) *)

Module Pyodide.

(** A [File] of the browser: its name and its bytes ([arrayBuffer()]). *)
Record File : Type := { f_name : jsstring; f_bytes : list Byte.byte }.

(** A [Blob]: its bytes and its MIME type. *)
Record Blob : Type := { b_data : list Byte.byte; b_type : jsstring }.

(** The virtual file system of the interpreter ([pyodide.FS]), flat: the
    code only uses names in the working directory. *)
Abbreviation FS := (gmap string (list Byte.byte)).

Definition writeFile (name : string) (data : list Byte.byte) (fs : FS) : FS :=
  <[name := data]> fs.

(** [FS.unlink] throws when there is no such file. *)
Definition unlink (name : string) (fs : FS) : Result jsstring FS :=
  match fs !! name with
  | Some _ => Ok (delete name fs)
  | None => Throw (utf16 "ErrnoError: No such file or directory")
  end.

(** [FS.analyzePath(name).exists] *)
Definition pathExists (name : string) (fs : FS) : bool :=
  bool_decide (is_Some (fs !! name)).

(** [FS.readFile] throws when there is no such file. *)
Definition readFile (name : string) (fs : FS) : Result jsstring (list Byte.byte) :=
  match fs !! name with
  | Some data => Ok data
  | None => Throw (utf16 "ErrnoError: No such file or directory")
  end.

(** What [pyodide.runPythonAsync(script)] leaves behind: the file system
    after the run, the batches written to standard output, and, when the
    interpreter raised, the [message] of the error. *)
Record PyOutcome : Type := {
  py_fs : FS;
  py_stdout : list jsstring;
  py_raised : option jsstring
}.

Definition xlsxType : jsstring :=
  utf16 "application/vnd.openxmlformats-officedocument.spreadsheetml.sheet".

Definition notInitialised : jsstring :=
  utf16 "Python環境が初期化されていません。".

Definition noOutputMessage : jsstring :=
  utf16 "スクリプトは正常に終了しましたが、'output.xlsx' が生成されませんでした。Pythonコード内でファイルの保存処理（output.xlsxへの書き出し）が行われなかった可能性があります。指示内容を見直してもう一度お試しください。".

(** [`実行エラー: ${err.message}`] *)
Definition executionError (message : jsstring) : jsstring :=
  utf16 "実行エラー: " ++ message.

Section Executor.

(** The interpreter is the platform's: [python script fs] is what running
    [script] on the file system [fs] does. *)
Variable python : jsstring -> FS -> PyOutcome.

(** The fixed extraction script of [extractA1AndColumns] and the
    [JSON.parse] of its result: the text of cell A1 and the column labels of
    the workbook with these bytes. The script has its own [try]/[except]
    and answers the empty text and no columns when it fails. *)
Variable workbook : list Byte.byte -> jsstring * list jsstring.

(** Lines 164-200. [instance] is [window.pyodideInstance]. *)
Definition extractA1AndColumns (instance : option FS) (file : File)
    : Result jsstring (jsstring * list jsstring) * option FS :=
  match instance with
  | None => (Throw notInitialised, None)
  | Some fs =>
    (Ok (workbook (f_bytes file)),
     Some (writeFile "input_temp.xlsx" (f_bytes file) fs))
  end.

(** Lines 221-228: the inner [try { unlink } catch(e) {}], then the run. *)
Definition cleanOutput (fs : FS) : FS :=
  match unlink "output.xlsx" fs with
  | Ok fs' => fs'
  | Throw _ => fs
  end.

(** Lines 213-225: the input is written, a previous output is removed and
    the script is run. *)
Definition scriptRun (fs : FS) (script : jsstring) (inputFile : File)
    : PyOutcome :=
  python script (cleanOutput (writeFile "input.xlsx" (f_bytes inputFile) fs)).

(** Lines 202-239. The result comes with the file system afterwards and the
    messages handed to [logCallback], in order. *)
Definition runPythonTransformation (instance : option FS) (script : jsstring)
    (inputFile : File)
    : Result jsstring Blob * option FS * list jsstring :=
  match instance with
  | None => (Throw notInitialised, None, [])
  | Some fs =>
    let out := scriptRun fs script inputFile in
    let logs :=
      [utf16 "ファイルを仮想環境に準備中..."; utf16 "Pythonスクリプトを実行しています..."]
      ++ map (fun msg => utf16 "[Python] " ++ msg) (py_stdout out) in
    match py_raised out with
    | Some message => (Throw (executionError message), Some (py_fs out), logs)
    | None =>
      let logs := logs ++ [utf16 "出力ファイルを確認しています..."] in
      if pathExists "output.xlsx" (py_fs out) then
        match readFile "output.xlsx" (py_fs out) with
        | Ok fileData =>
          (Ok {| b_data := fileData; b_type := xlsxType |},
           Some (py_fs out), logs)
        | Throw e => (Throw e, Some (py_fs out), logs)
        end
      else (Throw noOutputMessage, Some (py_fs out), logs)
    end
  end.

End Executor.

End Pyodide.

(** ** The component ([App.tsx], [types.ts]) *)

Module App.

Import Pyodide.

Inductive AppStatus : Type :=
| IDLE | BOOTING_PYTHON | READING_FILE | ANALYZING_INSTRUCTION
| GENERATING_CODE | EXECUTING_CODE | COMPLETED | ERROR.

Inductive LogType : Type := info | success | warning | error | code.

(** A [LogEntry] without its [timestamp], which nothing reads back. *)
Record LogEntry : Type := { message : jsstring; type : LogType }.

Definition MAX_DAILY_USES : Z := 50.

(** The item of [localStorage] under [STORAGE_KEY]: missing, not parseable
    as JSON, or the record [{ date, count }]. *)
Inductive Stored : Type :=
| NoItem
| Malformed
| Usage (date : jsstring) (count : Z).

(** Calls that leave the component, in the order they are made. *)
Inductive Effect : Type :=
| Extracted
| UsageReset
| Consumed
| Generated (events : list Gemini.Event)
| Executed.

(** The state variables of the component, the two pieces of browser state
    the handlers touch ([localStorage] and [window.pyodideInstance]) and the
    journal of outside calls. *)
Record State : Type := {
  status : AppStatus;
  logs : list LogEntry;
  inputFile : option File;
  a1Instruction : jsstring;
  generatedCode : jsstring;
  outputBlob : option Blob;
  errorMsg : option jsstring;
  remainingUses : Z;
  localStorage : Stored;
  pyodideInstance : option FS;
  journal : list Effect
}.

(** The state of a freshly mounted component. *)
Definition mount (storage : Stored) (instance : option FS)
    (journal : list Effect) : State :=
  {| status := IDLE; logs := []; inputFile := None; a1Instruction := [];
     generatedCode := []; outputBlob := None; errorMsg := None;
     remainingUses := MAX_DAILY_USES; localStorage := storage;
     pyodideInstance := instance; journal := journal |}.

(** Handlers run in a state-and-exception monad; an exception carries the
    [message] of the error thrown. *)
Definition M (A : Type) : Type := State -> Result jsstring A * State.

Definition ret {A} (v : A) : M A := fun s => (Ok v, s).

Definition bind {A B} (m : M A) (k : A -> M B) : M B :=
  fun s => match m s with
           | (Ok v, s') => k v s'
           | (Throw e, s') => (Throw e, s')
           end.

Definition throw {A} (e : jsstring) : M A := fun s => (Throw e, s).

(** [try { body } catch (e) { handler }] *)
Definition tryCatch {A} (body : M A) (handler : jsstring -> M A) : M A :=
  fun s => match body s with
           | (Ok v, s') => (Ok v, s')
           | (Throw e, s') => handler e s'
           end.

Definition modify (f : State -> State) : M unit := fun s => (Ok tt, f s).

Global Instance M_ret : MRet M := @ret.
Global Instance M_bind : MBind M := fun A B k m => bind m k.

Definition setStatus (v : AppStatus) : M unit :=
  modify (fun s => {| status := v; logs := logs s; inputFile := inputFile s;
    a1Instruction := a1Instruction s; generatedCode := generatedCode s;
    outputBlob := outputBlob s; errorMsg := errorMsg s;
    remainingUses := remainingUses s; localStorage := localStorage s;
    pyodideInstance := pyodideInstance s; journal := journal s |}).

Definition addLog (m : jsstring) (t : LogType) : M unit :=
  modify (fun s => {| status := status s;
    logs := logs s ++ [{| message := m; type := t |}];
    inputFile := inputFile s;
    a1Instruction := a1Instruction s; generatedCode := generatedCode s;
    outputBlob := outputBlob s; errorMsg := errorMsg s;
    remainingUses := remainingUses s; localStorage := localStorage s;
    pyodideInstance := pyodideInstance s; journal := journal s |}).

Definition setInputFile (v : option File) : M unit :=
  modify (fun s => {| status := status s; logs := logs s; inputFile := v;
    a1Instruction := a1Instruction s; generatedCode := generatedCode s;
    outputBlob := outputBlob s; errorMsg := errorMsg s;
    remainingUses := remainingUses s; localStorage := localStorage s;
    pyodideInstance := pyodideInstance s; journal := journal s |}).

Definition setA1Instruction (v : jsstring) : M unit :=
  modify (fun s => {| status := status s; logs := logs s;
    inputFile := inputFile s;
    a1Instruction := v; generatedCode := generatedCode s;
    outputBlob := outputBlob s; errorMsg := errorMsg s;
    remainingUses := remainingUses s; localStorage := localStorage s;
    pyodideInstance := pyodideInstance s; journal := journal s |}).

Definition setGeneratedCode (v : jsstring) : M unit :=
  modify (fun s => {| status := status s; logs := logs s;
    inputFile := inputFile s;
    a1Instruction := a1Instruction s; generatedCode := v;
    outputBlob := outputBlob s; errorMsg := errorMsg s;
    remainingUses := remainingUses s; localStorage := localStorage s;
    pyodideInstance := pyodideInstance s; journal := journal s |}).

Definition setOutputBlob (v : option Blob) : M unit :=
  modify (fun s => {| status := status s; logs := logs s;
    inputFile := inputFile s;
    a1Instruction := a1Instruction s; generatedCode := generatedCode s;
    outputBlob := v; errorMsg := errorMsg s;
    remainingUses := remainingUses s; localStorage := localStorage s;
    pyodideInstance := pyodideInstance s; journal := journal s |}).

Definition setErrorMsg (v : option jsstring) : M unit :=
  modify (fun s => {| status := status s; logs := logs s;
    inputFile := inputFile s;
    a1Instruction := a1Instruction s; generatedCode := generatedCode s;
    outputBlob := outputBlob s; errorMsg := v;
    remainingUses := remainingUses s; localStorage := localStorage s;
    pyodideInstance := pyodideInstance s; journal := journal s |}).

Definition setRemainingUses (v : Z) : M unit :=
  modify (fun s => {| status := status s; logs := logs s;
    inputFile := inputFile s;
    a1Instruction := a1Instruction s; generatedCode := generatedCode s;
    outputBlob := outputBlob s; errorMsg := errorMsg s;
    remainingUses := v; localStorage := localStorage s;
    pyodideInstance := pyodideInstance s; journal := journal s |}).

(** [localStorage.setItem(STORAGE_KEY, JSON.stringify(...))] *)
Definition setItem (v : Stored) : M unit :=
  modify (fun s => {| status := status s; logs := logs s;
    inputFile := inputFile s;
    a1Instruction := a1Instruction s; generatedCode := generatedCode s;
    outputBlob := outputBlob s; errorMsg := errorMsg s;
    remainingUses := remainingUses s; localStorage := v;
    pyodideInstance := pyodideInstance s; journal := journal s |}).

Definition setInstance (v : option FS) : M unit :=
  modify (fun s => {| status := status s; logs := logs s;
    inputFile := inputFile s;
    a1Instruction := a1Instruction s; generatedCode := generatedCode s;
    outputBlob := outputBlob s; errorMsg := errorMsg s;
    remainingUses := remainingUses s; localStorage := localStorage s;
    pyodideInstance := v; journal := journal s |}).

Definition record (e : Effect) : M unit :=
  modify (fun s => {| status := status s; logs := logs s;
    inputFile := inputFile s;
    a1Instruction := a1Instruction s; generatedCode := generatedCode s;
    outputBlob := outputBlob s; errorMsg := errorMsg s;
    remainingUses := remainingUses s; localStorage := localStorage s;
    pyodideInstance := pyodideInstance s; journal := journal s ++ [e] |}).

(** Lifts a collaborator's result into the monad. *)
Definition liftResult {A} (r : Result jsstring A) : M A :=
  match r with Ok v => ret v | Throw e => throw e end.

Fixpoint forEach {A} (f : A -> M unit) (l : list A) : M unit :=
  match l with
  | [] => ret tt
  | x :: l' => f x ;; forEach f l'
  end.

(** Lines 350-369: the effect that loads the usage record when the
    component mounts. [today] is [new Date().toDateString()]. *)
Definition loadUsage (today : jsstring) : M unit :=
  fun s =>
    match localStorage s with
    | Malformed => setRemainingUses MAX_DAILY_USES s
    | NoItem =>
      (setItem (Usage today 0) ;; record UsageReset ;;
       setRemainingUses MAX_DAILY_USES) s
    | Usage date count =>
      if bool_decide (date = today)
      then setRemainingUses (Z.max 0 (MAX_DAILY_USES - count)) s
      else (setItem (Usage today 0) ;; record UsageReset ;;
            setRemainingUses MAX_DAILY_USES) s
    end.

(** Lines 371-377. The handler reads [remainingUses] of the render it was
    created in, [render]. *)
Definition consumeUsage (today : jsstring) (render : State) : M unit :=
  let currentUsed := (MAX_DAILY_USES - remainingUses render)%Z in
  let newUsed := (currentUsed + 1)%Z in
  setItem (Usage today newUsed) ;;
  setRemainingUses (Z.max 0 (MAX_DAILY_USES - newUsed)) ;;
  record Consumed.

(** Line 410: [!a1 || a1.trim() === "" || a1 === "None"] *)
Definition noInstruction (a1 : jsstring) : bool :=
  bool_decide (a1 = []) || bool_decide (trim a1 = [])
  || bool_decide (a1 = utf16 "None").
Arguments noInstruction : simpl never.

Definition noticeOf (e : Gemini.Event) : list jsstring :=
  match e with Gemini.Notice _ msg => [msg] | _ => [] end.

Section Handlers.

Variable jsonErrorMessage : jsstring -> option jsstring.
Variable python : jsstring -> FS -> PyOutcome.
Variable workbook : list Byte.byte -> jsstring * list jsstring.

(** [process.env.API_KEY], the generation service during this handler and
    the calendar day. *)
Variable apiKey : option jsstring.
Variable service : nat -> Gemini.ServiceOutcome.
Variable today : jsstring.

Definition callExtract (file : File) : M (jsstring * list jsstring) :=
  fun s =>
    let '(r, instance) := extractA1AndColumns workbook (pyodideInstance s) file in
    (record Extracted ;; setInstance instance ;; liftResult r) s.

(** The generator with the [onRetry] callback of line 423, which logs each
    notice as a warning. *)
Definition callGenerate : M jsstring :=
  let '(r, events) := Gemini.generateExcelEditCode jsonErrorMessage apiKey service in
  record (Generated events) ;;
  forEach (fun msg => addLog msg warning) (events ≫= noticeOf) ;;
  liftResult r.

(** The executor with the log callback of line 432. *)
Definition callExecute (script : jsstring) (file : File) : M Blob :=
  fun s =>
    let '(r, instance, msgs) :=
      runPythonTransformation python (pyodideInstance s) script file in
    (record Executed ;; setInstance instance ;;
     forEach (fun msg => addLog msg info) msgs ;; liftResult r) s.

(** Lines 403-456 *)
Definition startTransformation (render : State) (file : File) : M unit :=
  tryCatch
    (setStatus READING_FILE ;;
     addLog (utf16 "解析開始: " ++ f_name file) info ;;
     '(a1, columns) ← callExtract file;
     (if noInstruction a1 then
        addLog (utf16 "警告: A1セルに指示が見つかりませんでした。") warning ;;
        setA1Instruction (utf16 "(指示なし)") ;;
        throw (utf16 "ExcelファイルのA1セルに指示内容を入力してアップロードしてください。")
      else
        addLog (utf16 "指示を検出: " ++ [dquote] ++ a1 ++ [dquote]) success ;;
        setA1Instruction a1) ;;
     setStatus GENERATING_CODE ;;
     addLog (utf16 "Gemini 3 Flash に指示を送信中...") info ;;
     consumeUsage today render ;;
     code ← callGenerate;
     setGeneratedCode code ;;
     addLog (utf16 "Pythonコードが生成されました。") success ;;
     setStatus EXECUTING_CODE ;;
     addLog (utf16 "Pythonを実行中...") info ;;
     resultBlob ← callExecute code file;
     setOutputBlob (Some resultBlob) ;;
     setStatus COMPLETED ;;
     addLog (utf16 "すべての処理が完了しました！") success)
    (fun e =>
       setStatus ERROR ;;
       let displayError := Gemini.unwrapPayload jsonErrorMessage e in
       setErrorMsg (Some displayError) ;;
       addLog displayError error).

(** Lines 385-401 *)
Definition processFile (render : State) (file : File) : M unit :=
  if (remainingUses render <=? 0)%Z then
    setErrorMsg (Some (utf16 "本日の生成回数の上限に達しました。明日またお試しください。")) ;;
    setStatus ERROR
  else
    setInputFile (Some file) ;;
    setOutputBlob None ;;
    setGeneratedCode [] ;;
    setA1Instruction [] ;;
    setErrorMsg None ;;
    startTransformation render file.

(** Lines 458-464 *)
Definition handleRetry (render : State) : M unit :=
  match inputFile render with
  | Some file =>
    setErrorMsg None ;;
    addLog (utf16 "処理を再試行しています...") info ;;
    startTransformation render file
  | None => ret tt
  end.

End Handlers.

(** A handler fired on the state [s] closes over that very render. *)
Definition fire (handler : State -> M unit) (s : State) : State :=
  snd (handler s s).

(** What happens to the usage record over time: a session starts (the page
    is loaded, the component mounts and the effect of lines 350-369 runs),
    or the running session consumes a use; each at the calendar day it
    happens on. *)
Inductive Action : Type :=
| Reload (today : jsstring)
| Use (today : jsstring).

Definition act (s : State) (a : Action) : State :=
  match a with
  | Reload today =>
    fire (fun _ => loadUsage today) (mount (localStorage s) None (journal s))
  | Use today => fire (consumeUsage today) s
  end.

Definition isReset (e : Effect) : bool :=
  match e with UsageReset => true | _ => false end.

(** The number of times the usage record was reset to [{ today, 0 }]. *)
Definition resets (journal : list Effect) : nat :=
  length (List.filter isReset journal).

(** Line 487: the condition under which the retry button is shown. *)
Definition isRetryableError (errorMsg : option jsstring) : bool :=
  match errorMsg with
  | None => false
  | Some m =>
    includes (utf16 "混み合っています") m || includes (utf16 "制限") m
    || includes (utf16 "503") m || includes (utf16 "429") m
    || includes (utf16 "Rpc") m || includes (utf16 "xhr") m
    || includes (utf16 "通信エラー") m
  end.

End App.

(** ** Vocabulary of the properties *)

(** [needle] occurs in [s] at index [i]. *)
Definition occursAt (needle s : jsstring) (i : nat) : Prop :=
  needle `prefix_of` drop i s.

(** [needle] occurs somewhere in [s]. *)
Definition occurs (needle s : jsstring) : Prop :=
  exists pre post, s = pre ++ needle ++ post.

(** The leftmost occurrence of [needle] in [s] is at index [i]. *)
Definition firstAt (needle s : jsstring) (i : nat) : Prop :=
  occursAt needle s i /\ forall j, j < i -> ~ occursAt needle s j.

(** Every code unit of [s] is white space. *)
Definition blank (s : jsstring) : Prop := Forall (fun c => isWhiteSpace c = true) s.

(** [s] neither starts nor ends with white space. *)
Definition trimmed (s : jsstring) : Prop :=
  (forall c r, s = c :: r -> isWhiteSpace c = false)
  /\ (forall c r, s = r ++ [c] -> isWhiteSpace c = false).

(** [text] holds a fenced block with content [body]: the opening fence is
    the leftmost [```python] of [text], the closing fence the first [```]
    after it. *)
Definition firstBlock (text body : jsstring) : Prop :=
  exists pre post,
    text = pre ++ Gemini.fencePython ++ body ++ Gemini.fence ++ post
    /\ firstAt Gemini.fencePython text (length pre)
    /\ firstAt Gemini.fence (body ++ Gemini.fence ++ post) (length body).

(** [text] holds an opening [```python] with a [```] somewhere after it. *)
Definition hasBlock (text : jsstring) : Prop :=
  exists pre body post,
    text = pre ++ Gemini.fencePython ++ body ++ Gemini.fence ++ post.

(** The patterns under which a caught error counts as transient, on the
    status and code the generator reads off the error and on its message
    text. *)
Definition matchesRetryPattern (error : Gemini.Thrown) : Prop :=
  let status := Gemini.statusOf error in
  let code := Gemini.codeOf error in
  let msg := Gemini.errorMsgOf error in
  status = Gemini.VStr (utf16 "UNAVAILABLE")
  \/ status = Gemini.VStr (utf16 "RESOURCE_EXHAUSTED")
  \/ (code = Gemini.VNum 503 \/ code = Gemini.VStr (utf16 "503"))
  \/ (code = Gemini.VNum 429 \/ code = Gemini.VStr (utf16 "429"))
  \/ occurs (utf16 "503") msg
  \/ occurs (utf16 "429") msg
  \/ occurs (utf16 "overloaded") (toLowerCase msg)
  \/ occurs (utf16 "unavailable") (toLowerCase msg)
  \/ occurs (utf16 "resource_exhausted") (toLowerCase msg).

(** The events of [k] attempts in a row, from [attempt] on, that each fail
    and are retried: the call, the notice, the sleep. *)
Fixpoint retryEvents (attempt k : nat) : list Gemini.Event :=
  match k with
  | O => []
  | S k' =>
    Gemini.Call attempt
      :: Gemini.Notice (attempt + 1) (Gemini.retryNotice attempt)
      :: Gemini.Sleep attempt :: retryEvents (S attempt) k'
  end.

(** An attempt whose outcome is an error matching the patterns. *)
Definition failsRetryably (o : Gemini.ServiceOutcome) : Prop :=
  exists error, Gemini.attemptOnce o = Throw error /\ matchesRetryPattern error.

(** [process.env.API_KEY] is set to a non-empty string. *)
Definition configured (apiKey : option jsstring) : Prop :=
  exists c key, apiKey = Some (c :: key).

(** After the failure of attempt [k] the generator slept and called the
    service again; or attempt [k] was its last call. *)
Definition retriedAfter (events : list Gemini.Event) (k : nat) : Prop :=
  exists rest, events = retryEvents 0 (S k) ++ Gemini.Call (S k) :: rest.

Definition stoppedAt (events : list Gemini.Event) (k : nat) : Prop :=
  events = retryEvents 0 k ++ [Gemini.Call k].

(** The state [processFile] hands over to [startTransformation] once the
    gate is passed, and the one [handleRetry] hands over. *)
Definition uploaded (file : Pyodide.File) (s : App.State) : App.State :=
  {| App.status := App.status s; App.logs := App.logs s;
     App.inputFile := Some file; App.a1Instruction := [];
     App.generatedCode := []; App.outputBlob := None; App.errorMsg := None;
     App.remainingUses := App.remainingUses s;
     App.localStorage := App.localStorage s;
     App.pyodideInstance := App.pyodideInstance s;
     App.journal := App.journal s |}.

Definition retrying (s : App.State) : App.State :=
  {| App.status := App.status s;
     App.logs := App.logs s
       ++ [{| App.message := utf16 "処理を再試行しています..."; App.type := App.info |}];
     App.inputFile := App.inputFile s;
     App.a1Instruction := App.a1Instruction s;
     App.generatedCode := App.generatedCode s;
     App.outputBlob := App.outputBlob s; App.errorMsg := None;
     App.remainingUses := App.remainingUses s;
     App.localStorage := App.localStorage s;
     App.pyodideInstance := App.pyodideInstance s;
     App.journal := App.journal s |}.

(** The action happens on the day [today]. *)
Definition onDay (today : jsstring) (a : App.Action) : Prop :=
  match a with
  | App.Reload d | App.Use d => d = today
  end.

(** ** Sample inputs *)

Module Sample.

Import Gemini.

Definition key : option jsstring := Some (utf16 "test-key").

(** A platform whose [JSON.parse] never finds an error message. *)
Definition noJson (_ : jsstring) : option jsstring := None.

(** [{"status":"RESOURCE_EXHAUSTED"}] *)
Definition quotaJson : jsstring :=
  utf16 "{" ++ [dquote] ++ utf16 "status" ++ [dquote] ++ utf16 ":"
  ++ [dquote] ++ utf16 "RESOURCE_EXHAUSTED" ++ [dquote] ++ utf16 "}".

(** An error object with [status: "RESOURCE_EXHAUSTED"] and the message
    [Quota exceeded]. *)
Definition quotaByStatus : Thrown :=
  ThrownObject {| e_status := VStr (utf16 "RESOURCE_EXHAUSTED");
                  e_code := VUndef;
                  e_message := Some (utf16 "Quota exceeded");
                  e_response := None;
                  e_json := quotaJson |}.

(** [new Error("503 Service Unavailable")] and [new Error("Invalid API key")] *)
Definition unavailable : Thrown := newError (utf16 "503 Service Unavailable").
Definition invalidKey : Thrown := newError (utf16 "Invalid API key").

(** A service that is unavailable once and then rejects the key. *)
Definition flaky (attempt : nat) : ServiceOutcome :=
  match attempt with
  | O => Rejected unavailable
  | _ => Rejected invalidKey
  end.

(** A service that is unavailable once and then answers nothing. *)
Definition mute (attempt : nat) : ServiceOutcome :=
  match attempt with
  | O => Rejected unavailable
  | _ => Resolved None
  end.

(** A script that saves a one-byte [output.xlsx], and one that prints a
    line and saves nothing. *)
Definition saves (_ : jsstring) (fs : Pyodide.FS) : Pyodide.PyOutcome :=
  {| Pyodide.py_fs := <["output.xlsx" := [Byte.x50]]> fs;
     Pyodide.py_stdout := [utf16 "saved"];
     Pyodide.py_raised := None |}.

Definition idles (_ : jsstring) (fs : Pyodide.FS) : Pyodide.PyOutcome :=
  {| Pyodide.py_fs := fs;
     Pyodide.py_stdout := [utf16 "nothing to do"];
     Pyodide.py_raised := None |}.

Definition book : Pyodide.File :=
  {| Pyodide.f_name := utf16 "book.xlsx"; Pyodide.f_bytes := [Byte.x01] |}.

(** A sandbox that still holds the output of an earlier run. *)
Definition stale : Pyodide.FS := {[ "output.xlsx" := [Byte.x02] ]}.

(** Workbooks: one with an instruction in A1, one whose A1 holds an
    ideographic space and a space. *)
Definition instructed (_ : list Byte.byte) : jsstring * list jsstring :=
  (utf16 "Double column C", [utf16 "A"; utf16 "B"; utf16 "C"]).

Definition blankA1 (_ : list Byte.byte) : jsstring * list jsstring :=
  (utf16 "　 ", []).

Definition saturday : jsstring := utf16 "Sat Oct 31 2026".
Definition sunday : jsstring := utf16 "Sun Nov 01 2026".

(** A service that is unavailable at every attempt, and one that answers. *)
Definition down (_ : nat) : ServiceOutcome := Rejected unavailable.

Definition up (_ : nat) : ServiceOutcome :=
  Resolved (Some (utf16 "```python
print(1)
```")).

(** A session on Sunday with one use left: the upload meets a service that
    is down, then the user presses the retry button and the service is up. *)
Definition lastUse : App.State :=
  App.fire (fun _ => App.loadUsage sunday)
           (App.mount (App.Usage sunday 49) (Some ∅) []).

Definition afterUpload : App.State :=
  App.fire (fun render =>
              App.processFile noJson saves instructed key down sunday render book)
           lastUse.

Definition afterRetry : App.State :=
  App.fire (App.handleRetry noJson saves instructed key up sunday) afterUpload.

(** A session that starts on Saturday with three uses recorded, consumes a
    use after midnight, and is followed by a new session on Sunday. *)
Definition overnight : App.State :=
  foldl App.act (App.mount (App.Usage saturday 3) None [])
        [App.Reload saturday; App.Use sunday; App.Reload sunday].

End Sample.

(** * Properties *)

Import Gemini.

(** Closed computations. *)
Ltac compute_eq := vm_compute; reflexivity.
Ltac compute_neq :=
  let H := fresh in intros H; vm_compute in H; discriminate H.

(** ** Strings *)

Example utf16_ascii : utf16 "503" = [53; 48; 51]%N.
Proof. reflexivity. Qed.

Example utf16_kana : utf16 "応答。" = [24540; 31572; 12290]%N.
Proof. reflexivity. Qed.

Example trim_ideographic_space : trim (utf16 "　 a b	 ") = utf16 "a b".
Proof. reflexivity. Qed.

Example removeAll_fence :
  removeAll (utf16 "```") (utf16 "````x``````y``") = utf16 "`xy``".
Proof. reflexivity. Qed.

Example ofZ_503 : ofZ 503 = utf16 "503".
Proof. reflexivity. Qed.

Lemma startsWith_prefix needle s :
  startsWith needle s = true <-> needle `prefix_of` s.
Proof.
  revert s. induction needle as [|a needle IH]; intros s; simpl.
  - split; [intros _; apply prefix_nil | done].
  - destruct s as [|b s].
    + split; [done | intros H; by apply prefix_nil_not in H].
    + rewrite andb_true_iff, N.eqb_eq, IH. split.
      * intros [-> H]. by apply prefix_cons.
      * intros H. split;
          [eapply prefix_cons_inv_1 | eapply prefix_cons_inv_2]; exact H.
Qed.

Lemma startsWith_false needle s :
  startsWith needle s = false <-> ~ needle `prefix_of` s.
Proof.
  rewrite <- startsWith_prefix. by destruct (startsWith needle s).
Qed.

Lemma indexOf_unfold needle s :
  indexOf needle s =
  if startsWith needle s then Some 0
  else match s with
       | [] => None
       | _ :: s' => S <$> indexOf needle s'
       end.
Proof. by destruct s. Qed.

Lemma indexOf_Some needle s i :
  indexOf needle s = Some i <-> firstAt needle s i /\ i <= length s.
Proof.
  revert i. induction s as [|c s IH]; intros i; rewrite indexOf_unfold.
  - destruct (startsWith needle []) eqn:E.
    + apply startsWith_prefix in E. split.
      * intros [= <-]. repeat split; [exact E | lia | done].
      * intros [[_ _] Hi]. simpl in Hi. f_equal. lia.
    + apply startsWith_false in E. split; [done|].
      intros [[H _] _]. unfold occursAt in H. by rewrite drop_nil in H.
  - destruct (startsWith needle (c :: s)) eqn:E.
    + apply startsWith_prefix in E. split.
      * intros [= <-]. repeat split; [exact E | lia | simpl; lia].
      * intros [[_ Hmin] _]. destruct i as [|i]; [done|].
        exfalso. apply (Hmin 0); [lia | exact E].
    + apply startsWith_false in E. split.
      * intros H. destruct (indexOf needle s) as [k|]; [|done].
        injection H as <-. destruct (proj1 (IH k) eq_refl) as [[Hk Hmin] Hle].
        repeat split; [exact Hk | | simpl; lia].
        intros [|j] Hj; [exact E | apply Hmin; lia].
      * intros [[Hi Hmin] Hle]. destruct i as [|i]; [by destruct E|].
        assert (indexOf needle s = Some i) as ->; [|done].
        apply IH. repeat split; [exact Hi | | simpl in Hle; lia].
        intros j Hj. apply (Hmin (S j)). lia.
Qed.

Lemma indexOf_None needle s :
  indexOf needle s = None <-> forall j, ~ occursAt needle s j.
Proof.
  induction s as [|c s IH]; rewrite indexOf_unfold.
  - destruct (startsWith needle []) eqn:E.
    + apply startsWith_prefix in E. split; [done|]. intros H. by destruct (H 0).
    + apply startsWith_false in E. split; [|done].
      intros _ j. unfold occursAt. by rewrite drop_nil.
  - destruct (startsWith needle (c :: s)) eqn:E.
    + apply startsWith_prefix in E. split; [done|]. intros H. by destruct (H 0).
    + apply startsWith_false in E.
      destruct (indexOf needle s) as [k|] eqn:Ek; simpl.
      * split; [done|]. intros H. apply indexOf_Some in Ek as [[Hk _] _].
        by destruct (H (S k)).
      * split; [|done]. intros _ [|j]; [exact E|]. by apply IH.
Qed.

Lemma occurs_occursAt needle s : occurs needle s <-> exists i, occursAt needle s i.
Proof.
  split.
  - intros (pre & post & ->). exists (length pre). unfold occursAt.
    rewrite drop_app_length. by exists post.
  - intros (i & post & Hi). exists (take i s), post.
    by rewrite <- Hi, take_drop.
Qed.

Lemma includes_occurs needle s : includes needle s = true <-> occurs needle s.
Proof.
  unfold includes. rewrite bool_decide_eq_true, occurs_occursAt. split.
  - intros [i Hi]. apply indexOf_Some in Hi as [[Hi _] _]. by exists i.
  - intros [i Hi]. destruct (indexOf needle s) eqn:E; [done|].
    by apply (proj1 (indexOf_None _ _) E) in Hi.
Qed.

Lemma includes_false needle s : includes needle s = false <-> ~ occurs needle s.
Proof.
  rewrite <- includes_occurs. by destruct (includes needle s).
Qed.

(** [trim] removes white space at both ends and nothing else. *)
Lemma trimStart_split s : exists ws, s = ws ++ trimStart s /\ blank ws.
Proof.
  induction s as [|c s (ws & Hs & Hws)]; simpl.
  - exists []. split; [done | constructor].
  - destruct (isWhiteSpace c) eqn:E.
    + exists (c :: ws). split; [simpl; by f_equal | by constructor].
    + exists []. split; [done | constructor].
Qed.

Lemma trimStart_head s c r : trimStart s = c :: r -> isWhiteSpace c = false.
Proof.
  induction s as [|x s IH]; simpl; [done|].
  destruct (isWhiteSpace x) eqn:E; [exact IH|]. by intros [= <- _].
Qed.

Lemma trimStart_nil s : trimStart s = [] <-> blank s.
Proof.
  induction s as [|c s IH]; simpl.
  - split; [constructor | done].
  - destruct (isWhiteSpace c) eqn:E.
    + rewrite IH. split; [by constructor | by inversion 1].
    + split; [done|]. inversion 1; congruence.
Qed.

Lemma trimStart_snoc s c :
  isWhiteSpace c = false -> trimStart (s ++ [c]) = trimStart s ++ [c].
Proof.
  intros Hc. induction s as [|x s IH]; simpl; [by rewrite Hc|].
  by destruct (isWhiteSpace x).
Qed.

Lemma trim_unfold s :
  trim s = match trimStart s with
           | [] => []
           | c :: r => c :: trimEnd r
           end.
Proof.
  unfold trim. destruct (trimStart s) as [|c r] eqn:E; [done|].
  apply trimStart_head in E. unfold trimEnd at 1.
  by rewrite reverse_cons, trimStart_snoc, reverse_snoc.
Qed.

Lemma blank_reverse s : blank (reverse s) <-> blank s.
Proof. unfold blank. by rewrite Forall_reverse. Qed.

Lemma trimEnd_split s : exists ws, s = trimEnd s ++ ws /\ blank ws.
Proof.
  destruct (trimStart_split (reverse s)) as (ws & Hs & Hws).
  exists (reverse ws). split; [|by apply blank_reverse].
  unfold trimEnd. by rewrite <- reverse_app, <- Hs, reverse_involutive.
Qed.

Lemma trim_split s :
  exists ws1 ws2, s = ws1 ++ trim s ++ ws2 /\ blank ws1 /\ blank ws2.
Proof.
  destruct (trimStart_split s) as (ws1 & Hs & H1).
  destruct (trimEnd_split (trimStart s)) as (ws2 & Ht & H2).
  exists ws1, ws2. unfold trim. by rewrite <- Ht.
Qed.

Lemma trim_nil s : trim s = [] <-> blank s.
Proof.
  rewrite trim_unfold. destruct (trimStart s) as [|c r] eqn:E.
  - by rewrite <- trimStart_nil.
  - split; [done|]. intros H. apply trimStart_nil in H. congruence.
Qed.

Lemma trimmed_trim s : trimmed (trim s).
Proof.
  split.
  - intros c r. rewrite trim_unfold.
    destruct (trimStart s) as [|x u] eqn:E; [done|].
    intros [= <- _]. by apply trimStart_head in E.
  - intros c r H. unfold trim, trimEnd in H.
    apply (f_equal reverse) in H.
    rewrite reverse_involutive, reverse_snoc in H.
    by apply trimStart_head in H.
Qed.

Lemma occurs_app needle pre s post :
  occurs needle s -> occurs needle (pre ++ s ++ post).
Proof.
  intros (a & b & ->). exists (pre ++ a), (b ++ post).
  by rewrite <- !app_assoc.
Qed.

Lemma occurs_trim needle s : occurs needle (trim s) -> occurs needle s.
Proof.
  intros H. destruct (trim_split s) as (ws1 & ws2 & Hs & _).
  rewrite Hs. by apply occurs_app.
Qed.

(** Global removal of a literal. *)
Lemma removeFrom_drop needle k s :
  removeFrom needle k s = removeFrom needle 0 (drop k s).
Proof.
  revert k. induction s as [|c s IH]; intros [|k]; try done.
  simpl removeFrom at 1. by rewrite IH.
Qed.

Lemma removeAll_nil needle : removeAll needle [] = [].
Proof. done. Qed.

Lemma removeAll_cons needle c s :
  needle <> [] ->
  removeAll needle (c :: s) =
  if startsWith needle (c :: s)
  then removeAll needle (drop (length needle) (c :: s))
  else c :: removeAll needle s.
Proof.
  intros Hne. unfold removeAll. simpl removeFrom at 1.
  destruct (startsWith needle (c :: s)); [|done].
  rewrite removeFrom_drop. by destruct needle.
Qed.

Lemma fence_units : fence = [96; 96; 96]%N.
Proof. reflexivity. Qed.

Lemma fencePython_units : fencePython = fence ++ utf16 "python".
Proof. reflexivity. Qed.

Section FenceRemoval.

Let tick : N := 96%N.

Lemma removeAll_fence_cons c s :
  (fence `prefix_of` c :: s /\
   removeAll fence (c :: s) = removeAll fence (drop 3 (c :: s)))
  \/ (~ fence `prefix_of` c :: s /\
      removeAll fence (c :: s) = c :: removeAll fence s).
Proof.
  rewrite removeAll_cons by done.
  destruct (startsWith fence (c :: s)) eqn:E.
  - left. by apply startsWith_prefix in E.
  - right. by apply startsWith_false in E.
Qed.

Lemma removeAll_fence_tick s :
  [tick] `prefix_of` removeAll fence s -> [tick] `prefix_of` s.
Proof.
  destruct s as [|c s]; [done|].
  destruct (removeAll_fence_cons c s) as [[H _]|[_ ->]].
  - intros _. rewrite fence_units in H.
    by apply (prefix_app_l [tick] _ [tick; tick]).
  - intros H. apply prefix_cons_inv_1 in H as <-.
    apply prefix_cons, prefix_nil.
Qed.

Lemma removeAll_fence_ticks s :
  [tick; tick] `prefix_of` removeAll fence s -> [tick; tick] `prefix_of` s.
Proof.
  destruct s as [|c s]; [intros H; by apply prefix_nil_not in H|].
  destruct (removeAll_fence_cons c s) as [[H _]|[_ ->]].
  - intros _. rewrite fence_units in H.
    by apply (prefix_app_l [tick; tick] _ [tick]).
  - intros H. pose proof (prefix_cons_inv_1 _ _ _ _ H) as <-.
    apply prefix_cons, removeAll_fence_tick.
    by apply prefix_cons_inv_2 in H.
Qed.

Lemma removeAll_fence_nowhere n s j :
  length s <= n -> ~ occursAt fence (removeAll fence s) j.
Proof.
  revert s j. induction n as [|n IH]; intros s j Hn.
  - destruct s; [|simpl in Hn; lia]. unfold occursAt.
    rewrite removeAll_nil, drop_nil. apply prefix_nil_not.
  - destruct s as [|c s].
    { unfold occursAt. rewrite removeAll_nil, drop_nil. apply prefix_nil_not. }
    destruct (removeAll_fence_cons c s) as [[_ ->]|[Hc ->]].
    + apply IH. rewrite length_drop. simpl in *. lia.
    + destruct j as [|j]; [|apply IH; simpl in Hn; lia].
      unfold occursAt. rewrite drop_0, fence_units. intros H.
      apply Hc. rewrite fence_units.
      pose proof (prefix_cons_inv_1 _ _ _ _ H) as <-.
      apply prefix_cons, removeAll_fence_ticks.
      by apply prefix_cons_inv_2 in H.
Qed.

End FenceRemoval.

(** After the global removal of the fence no fence is left. *)
Lemma removeAll_fence_free s : ~ occurs fence (removeAll fence s).
Proof.
  rewrite occurs_occursAt. intros [j H].
  by apply (removeAll_fence_nowhere (length s) s j) in H.
Qed.

Lemma stripFences_free text : ~ occurs fence (stripFences text).
Proof.
  unfold stripFences. intros H. apply occurs_trim in H.
  by apply removeAll_fence_free in H.
Qed.

(** ** Response parsing *)

Lemma drop_occurrence (pre needle post : jsstring) :
  drop (length pre + length needle) (pre ++ needle ++ post) = post.
Proof. by rewrite <- drop_drop, drop_app_length, drop_app_length. Qed.

Lemma occursAt_split needle s i :
  occursAt needle s i -> i <= length s ->
  exists post, s = take i s ++ needle ++ post /\ length (take i s) = i.
Proof.
  intros [post H] Hi. exists post. split.
  - by rewrite <- H, take_drop.
  - rewrite length_take. lia.
Qed.

Local Ltac step := cbv beta iota zeta delta [mbind option_bind].

Lemma codeMatch_firstBlock text body :
  codeMatch text = Some body <-> firstBlock text body.
Proof.
  unfold codeMatch. step. split.
  - destruct (indexOf fencePython text) as [i|] eqn:Ei; [step|done].
    destruct (indexOf fence _) as [j|] eqn:Ej; [step|done].
    intros H. apply (inj Some) in H. subst body.
    apply indexOf_Some in Ei as [Hi Hli].
    destruct (occursAt_split _ _ _ (proj1 Hi) Hli) as (rest & Ht & Hlen).
    assert (drop (i + length fencePython) text = rest) as Hrest.
    { rewrite Ht at 1. rewrite <- Hlen at 1. apply drop_occurrence. }
    rewrite Hrest in Ej |- *.
    apply indexOf_Some in Ej as [Hj Hlj].
    destruct (occursAt_split _ _ _ (proj1 Hj) Hlj) as (post & Hr & Hlen').
    exists (take i text), post. rewrite Hlen, Hlen', <- Hr. done.
  - intros (pre & post & Ht & Hpre & Hbody).
    assert (indexOf fencePython text = Some (length pre)) as ->.
    { apply indexOf_Some. split; [done|]. rewrite Ht, length_app. lia. }
    step.
    assert (drop (length pre + length fencePython) text
            = body ++ fence ++ post) as ->.
    { rewrite Ht at 1. apply drop_occurrence. }
    assert (indexOf fence (body ++ fence ++ post) = Some (length body)) as ->.
    { apply indexOf_Some. split; [done|]. rewrite length_app. lia. }
    step. by rewrite take_app_length.
Qed.

Lemma hasBlock_codeMatch text : hasBlock text -> is_Some (codeMatch text).
Proof.
  intros (pre & body & post & Ht). unfold codeMatch. step.
  assert (occursAt fencePython text (length pre)) as Hocc.
  { unfold occursAt. rewrite Ht, drop_app_length. by eexists. }
  destruct (indexOf fencePython text) as [i|] eqn:Ei;
    [|by apply (proj1 (indexOf_None _ _) Ei) in Hocc].
  step. apply indexOf_Some in Ei as [[_ Hmin] _].
  assert (i <= length pre) as Hi.
  { destruct (decide (i <= length pre)) as [|Hn]; [done|].
    exfalso. apply (Hmin (length pre)); [lia | done]. }
  set (rest := drop (i + length fencePython) text).
  assert (occursAt fence rest (length pre - i + length body)) as Hf.
  { unfold occursAt, rest. rewrite drop_drop.
    replace (i + length fencePython + (length pre - i + length body))
      with (length (pre ++ fencePython ++ body)) by (rewrite !length_app; lia).
    rewrite Ht.
    replace (pre ++ fencePython ++ body ++ fence ++ post)
      with ((pre ++ fencePython ++ body) ++ fence ++ post)
      by (by rewrite <- !app_assoc).
    rewrite drop_app_length. by eexists. }
  destruct (indexOf fence rest) as [j|] eqn:Ej; [by eexists|].
  by apply (proj1 (indexOf_None _ _) Ej) in Hf.
Qed.

Lemma codeMatch_None text : codeMatch text = None <-> ~ hasBlock text.
Proof.
  split.
  - intros E H. apply hasBlock_codeMatch in H as [body H]. congruence.
  - intros H. destruct (codeMatch text) as [body|] eqn:E; [|done].
    destruct H. apply codeMatch_firstBlock in E as (pre & post & -> & _).
    by exists pre, body, post.
Qed.

Lemma firstBlock_fence_free text body :
  firstBlock text body -> ~ occurs fence body.
Proof.
  intros (pre & post & _ & _ & _ & Hmin) (a & b & ->).
  apply (Hmin (length a)).
  - rewrite !length_app. simpl. lia.
  - unfold occursAt. rewrite <- !app_assoc, drop_app_length. by eexists.
Qed.

(** C7, as amended. For a non-empty response text: when its first
    [```python] block has a non-empty content, the script is that content,
    trimmed; when the content of the first block is the empty string, or
    when there is no block, the script is the whole text with every
    [```python] and then every [```] removed, trimmed. In each case the
    script holds no fence marker and neither starts nor ends with white
    space. *)
Theorem parseResponse_script (text : jsstring) :
  text <> [] ->
  (forall body, firstBlock text body -> body <> [] ->
     parseResponse (Some text) = Ok (trim body))
  /\ (firstBlock text [] \/ ~ hasBlock text ->
      parseResponse (Some text)
      = Ok (trim (removeAll fence (removeAll fencePython text))))
  /\ (forall script, parseResponse (Some text) = Ok script ->
      trimmed script /\ ~ occurs fence script).
Proof.
  intros Hne. destruct text as [|t text]; [done|].
  unfold parseResponse. split; [|split].
  - intros body Hb Hbody.
    rewrite (proj2 (codeMatch_firstBlock _ _) Hb). by destruct body.
  - intros [Hb|Hb].
    + by rewrite (proj2 (codeMatch_firstBlock _ _) Hb).
    + by rewrite (proj2 (codeMatch_None _) Hb).
  - intros script.
    destruct (codeMatch (t :: text)) as [[|c body]|] eqn:E; intros [= <-];
      (split; [apply trimmed_trim|]); try apply stripFences_free.
    intros H. apply occurs_trim in H.
    apply codeMatch_firstBlock in E. by apply firstBlock_fence_free in E.
Qed.

Lemma parseResponse_script_witness :
  utf16 "```python x = 1 ```" <> []
  /\ ((forall body, firstBlock (utf16 "```python x = 1 ```") body -> body <> [] ->
        parseResponse (Some (utf16 "```python x = 1 ```")) = Ok (trim body))
      /\ (firstBlock (utf16 "```python x = 1 ```") []
          \/ ~ hasBlock (utf16 "```python x = 1 ```") ->
          parseResponse (Some (utf16 "```python x = 1 ```"))
          = Ok (trim (removeAll fence
                        (removeAll fencePython (utf16 "```python x = 1 ```")))))
      /\ (forall script,
            parseResponse (Some (utf16 "```python x = 1 ```")) = Ok script ->
            trimmed script /\ ~ occurs fence script)).
Proof.
  split; [done | apply (parseResponse_script (utf16 "```python x = 1 ```")); done].
Defined.

(** C7 as stated fails on an empty block: the text holds a [```python]
    block whose content is empty, and the script returned is not that
    content but the rest of the text. *)
Lemma parseResponse_empty_block :
  utf16 "```python```abc" <> []
  /\ firstBlock (utf16 "```python```abc") []
  /\ parseResponse (Some (utf16 "```python```abc")) = Ok (utf16 "abc")
  /\ utf16 "abc" <> trim [].
Proof.
  repeat split; try done.
  by apply codeMatch_firstBlock.
Qed.

Example parseResponse_first_block :
  parseResponse (Some (utf16 "ok: ```python
import pandas as pd
``` and ```python x```"))
  = Ok (utf16 "import pandas as pd").
Proof. reflexivity. Qed.

Example parseResponse_no_block :
  parseResponse (Some (utf16 " print(1) ``` ")) = Ok (utf16 "print(1)").
Proof. reflexivity. Qed.

(** ** Classification of caught errors *)

Lemma to_int_inj z1 z2 : Z.to_int z1 = Z.to_int z2 -> z1 = z2.
Proof.
  intros H. by rewrite <- (DecimalZ.of_to z1), <- (DecimalZ.of_to z2), H.
Qed.

Lemma to_int_nonnil z :
  Z.to_int z <> Decimal.Pos Decimal.Nil /\ Z.to_int z <> Decimal.Neg Decimal.Nil.
Proof.
  split; intros H; pose proof (f_equal Z.of_int H) as H';
    rewrite DecimalZ.of_to in H'; rewrite H' in H; by vm_compute in H.
Qed.

Lemma ofZ_inj z1 z2 : ofZ z1 = ofZ z2 -> z1 = z2.
Proof.
  unfold ofZ. intros H. apply to_int_inj.
  assert (Inj (=) (=) N_of_ascii) as Hinj.
  { intros a b Hab. by rewrite <- (ascii_N_embedding a), Hab, ascii_N_embedding. }
  apply (inj (map N_of_ascii)) in H.
  apply (f_equal string_of_list_ascii) in H.
  rewrite !string_of_list_ascii_of_string in H.
  destruct (to_int_nonnil z1) as [Hp1 Hn1], (to_int_nonnil z2) as [Hp2 Hn2].
  pose proof (NilZero.isi _ Hp1 Hn1) as H1.
  pose proof (NilZero.isi _ Hp2 Hn2) as H2.
  rewrite H in H1. congruence.
Qed.

Lemma strictEq_true v lit : strictEq v lit = true <-> v = VStr lit.
Proof.
  destruct v; simpl; try (split; [done | by intros [=]]).
  rewrite bool_decide_eq_true. split; [by intros -> | by intros [= ->]].
Qed.

Lemma toString_503 v :
  toString v = utf16 "503" <-> v = VNum 503 \/ v = VStr (utf16 "503").
Proof.
  split.
  - destruct v as [|z|s]; simpl; [done | | intros ->; by right].
    intros H. left. f_equal. by apply ofZ_inj.
  - by intros [-> | ->].
Qed.

Lemma toString_429 v :
  toString v = utf16 "429" <-> v = VNum 429 \/ v = VStr (utf16 "429").
Proof.
  split.
  - destruct v as [|z|s]; simpl; [done | | intros ->; by right].
    intros H. left. f_equal. by apply ofZ_inj.
  - by intros [-> | ->].
Qed.

(** The test of lines 85-94 is the list of patterns. *)
Lemma isRetryable_matches error :
  isRetryable error = true <-> matchesRetryPattern error.
Proof.
  unfold isRetryable, matchesRetryPattern.
  rewrite !orb_true_iff, !strictEq_true, !bool_decide_eq_true,
    !includes_occurs, toString_503, toString_429.
  tauto.
Qed.

Lemma isRetryable_false error :
  isRetryable error = false <-> ~ matchesRetryPattern error.
Proof.
  rewrite <- isRetryable_matches. by destruct (isRetryable error).
Qed.

(** ** The retry loop *)

Lemma retryLoop_return service rounds attempt last script :
  attemptOnce (service attempt) = Ok script ->
  retryLoop service (S rounds) attempt last = (Returned script, [Call attempt]).
Proof. intros H. simpl. by rewrite H. Qed.

Lemma retryLoop_retry service rounds attempt last error :
  attemptOnce (service attempt) = Throw error ->
  isRetryable error = true -> attempt < maxRetries ->
  retryLoop service (S rounds) attempt last =
  ((retryLoop service rounds (S attempt) (Some error)).1,
   retryEvents attempt 1
     ++ (retryLoop service rounds (S attempt) (Some error)).2).
Proof.
  intros H Hr Hlt. simpl. rewrite H, Hr.
  apply Nat.ltb_lt in Hlt. rewrite Hlt. simpl.
  by destruct (retryLoop service rounds (S attempt) (Some error)).
Qed.

Lemma retryLoop_stop service rounds attempt last error :
  attemptOnce (service attempt) = Throw error ->
  ~ (attempt < maxRetries /\ matchesRetryPattern error) ->
  retryLoop service (S rounds) attempt last = (Left (Some error), [Call attempt]).
Proof.
  intros H Hn. simpl. rewrite H.
  destruct (isRetryable error) eqn:Hr; [|done].
  destruct (attempt <? maxRetries) eqn:Hlt; [|done].
  destruct Hn. split; [by apply Nat.ltb_lt | by apply isRetryable_matches].
Qed.

Lemma retryEvents_app attempt k1 k2 :
  retryEvents attempt (k1 + k2)
  = retryEvents attempt k1 ++ retryEvents (attempt + k1) k2.
Proof.
  revert attempt. induction k1 as [|k1 IH]; intros attempt; simpl.
  - by rewrite Nat.add_0_r.
  - rewrite IH. by replace (S attempt + k1) with (attempt + S k1) by lia.
Qed.

(** As long as the attempts fail with matching errors below the ceiling,
    the loop goes on. *)
Lemma retryLoop_retries service k rounds attempt last :
  (forall i, attempt <= i < attempt + k -> failsRetryably (service i)) ->
  attempt + k <= maxRetries ->
  exists last',
    retryLoop service (k + rounds) attempt last =
    ((retryLoop service rounds (attempt + k) last').1,
     retryEvents attempt k ++ (retryLoop service rounds (attempt + k) last').2).
Proof.
  revert attempt last. induction k as [|k IH]; intros attempt last Hfail Hle.
  - exists last. rewrite Nat.add_0_r. simpl.
    by destruct (retryLoop service rounds attempt last).
  - destruct (Hfail attempt) as (error & He & Hm); [lia|].
    destruct (IH (S attempt) (Some error)) as [last' Hk].
    { intros i Hi. apply Hfail. lia. }
    { lia. }
    exists last'. change (S k + rounds) with (S (k + rounds)).
    rewrite (retryLoop_retry _ _ _ _ error); [|done| |lia].
    2: by apply isRetryable_matches.
    rewrite Hk. by replace (S attempt + k) with (attempt + S k) by lia.
Qed.

Lemma retryLoop_head service rounds attempt last :
  exists rest,
    (retryLoop service (S rounds) attempt last).2 = Call attempt :: rest.
Proof.
  simpl. destruct (attemptOnce (service attempt)) as [script|error];
    [by eexists|].
  destruct (isRetryable error && (attempt <? maxRetries)); [|by eexists].
  destruct (retryLoop service rounds (S attempt) (Some error)). by eexists.
Qed.

Lemma retryEvents_length attempt k : length (retryEvents attempt k) = 3 * k.
Proof.
  revert attempt. induction k as [|k IH]; intros attempt; simpl; [done|].
  rewrite IH. lia.
Qed.

Lemma calls_app l1 l2 : calls (l1 ++ l2) = calls l1 + calls l2.
Proof. unfold calls. by rewrite List.filter_app, length_app. Qed.

Lemma sleeps_app l1 l2 : sleeps (l1 ++ l2) = sleeps l1 + sleeps l2.
Proof. unfold sleeps. by rewrite List.filter_app, length_app. Qed.

Lemma calls_retryEvents attempt k : calls (retryEvents attempt k) = k.
Proof.
  revert attempt. induction k as [|k IH]; intros attempt; [done|].
  unfold calls in *. simpl. by rewrite IH.
Qed.

Lemma sleeps_retryEvents attempt k : sleeps (retryEvents attempt k) = k.
Proof.
  revert attempt. induction k as [|k IH]; intros attempt; [done|].
  unfold sleeps in *. simpl. by rewrite IH.
Qed.

Lemma calls_last k : calls [Call k] = 1.
Proof. reflexivity. Qed.

Lemma sleeps_last k : sleeps [Call k] = 0.
Proof. reflexivity. Qed.

(** The loop never leaves [lastError] undefined. *)
Lemma retryLoop_lastError service rounds attempt last :
  attempt + rounds = S maxRetries -> 0 < rounds ->
  (retryLoop service rounds attempt last).1 <> Left None.
Proof.
  revert attempt last. induction rounds as [|rounds IH];
    intros attempt last Hsum Hpos; [lia|].
  simpl. destruct (attemptOnce (service attempt)) as [script|error]; [done|].
  destruct (isRetryable error && (attempt <? maxRetries)) eqn:E; [|done].
  apply andb_true_iff in E as [_ E]. apply Nat.ltb_lt in E.
  specialize (IH (S attempt) (Some error)).
  destruct (retryLoop service rounds (S attempt) (Some error)).
  apply IH; lia.
Qed.

(** ** The generator as a whole *)

Section GeneratorFacts.

Variable jsonErrorMessage : jsstring -> option jsstring.
Variable apiKey : option jsstring.
Variable service : nat -> ServiceOutcome.

Let run := generateExcelEditCode jsonErrorMessage apiKey service.
Let loop := retryLoop service (S maxRetries) 0 None.

Lemma generate_loop :
  configured apiKey ->
  run.1 = match loop.1 with
          | Returned script => Ok script
          | Left lastError => Throw (finalError jsonErrorMessage lastError)
          end
  /\ run.2 = loop.2.
Proof.
  intros (c & key & ->). unfold run, loop, generateExcelEditCode.
  by destruct (retryLoop service (S maxRetries) 0 None) as [[script|lastError] events].
Qed.

(** The run up to attempt [k], all attempts before it having failed with
    matching errors. *)
Lemma generate_prefix k :
  k <= maxRetries ->
  (forall i, i < k -> failsRetryably (service i)) ->
  exists last',
    loop = ((retryLoop service (S (maxRetries - k)) k last').1,
            retryEvents 0 k ++ (retryLoop service (S (maxRetries - k)) k last').2).
Proof.
  intros Hk Hfail.
  destruct (retryLoop_retries service k (S (maxRetries - k)) 0 None)
    as [last' H]; [intros i Hi; apply Hfail; lia | lia |].
  exists last'. unfold loop.
  by replace (S maxRetries) with (k + S (maxRetries - k)) by lia.
Qed.

Lemma generate_retried k error :
  configured apiKey -> k < maxRetries ->
  (forall i, i < k -> failsRetryably (service i)) ->
  attemptOnce (service k) = Throw error -> matchesRetryPattern error ->
  retriedAfter run.2 k.
Proof.
  intros Hkey Hk Hfail He Hm.
  destruct (generate_loop Hkey) as [_ ->].
  destruct (generate_prefix k) as [last' ->]; [lia | done |].
  rewrite (retryLoop_retry _ _ _ _ error); [|done| |done].
  2: by apply isRetryable_matches.
  replace (maxRetries - k) with (S (maxRetries - S k)) by lia.
  destruct (retryLoop_head service (maxRetries - S k) (S k) (Some error))
    as [rest Hrest].
  exists rest. cbn [snd]. rewrite Hrest.
  assert (retryEvents 0 (S k) = retryEvents 0 k ++ retryEvents k 1) as ->.
  { replace (S k) with (k + 1) by lia. apply retryEvents_app. }
  by rewrite <- app_assoc.
Qed.

Lemma generate_stopped k error :
  configured apiKey -> k <= maxRetries ->
  (forall i, i < k -> failsRetryably (service i)) ->
  attemptOnce (service k) = Throw error ->
  ~ (k < maxRetries /\ matchesRetryPattern error) ->
  run = (Throw (finalError jsonErrorMessage (Some error)),
         retryEvents 0 k ++ [Call k]).
Proof.
  intros Hkey Hk Hfail He Hn.
  destruct (generate_loop Hkey) as [H1 H2].
  destruct (generate_prefix k) as [last' Hl]; [done | done |].
  rewrite (retryLoop_stop _ _ _ _ error) in Hl by done.
  rewrite Hl in H1, H2. cbn [fst snd] in H1, H2.
  by rewrite (surjective_pairing run), H1, H2.
Qed.

Lemma stopped_not_retried events k : stoppedAt events k -> ~ retriedAfter events k.
Proof.
  intros -> [rest H]. apply (f_equal length) in H.
  rewrite !length_app, !retryEvents_length in H. simpl in H. lia.
Qed.

(** C5. An attempt [k] that happens (the earlier attempts having failed
    with matching errors) and throws [error] is followed by a sleep and a
    further call exactly when [k] is below the ceiling and [error] matches
    one of the patterns; otherwise, in particular for every error matching
    none of them, attempt [k] is the last call and the function throws. *)
Theorem retry_decision k error :
  configured apiKey -> k <= maxRetries ->
  (forall i, i < k -> failsRetryably (service i)) ->
  attemptOnce (service k) = Throw error ->
  (retriedAfter run.2 k <-> k < maxRetries /\ matchesRetryPattern error)
  /\ (~ (k < maxRetries /\ matchesRetryPattern error) ->
      stoppedAt run.2 k /\ calls run.2 = S k /\ sleeps run.2 = k
      /\ exists m, run.1 = Throw m).
Proof.
  intros Hkey Hk Hfail He.
  assert (~ (k < maxRetries /\ matchesRetryPattern error) ->
          stoppedAt run.2 k /\ calls run.2 = S k /\ sleeps run.2 = k
          /\ exists m, run.1 = Throw m) as Hstop.
  { intros Hn. rewrite (generate_stopped k error) by done. cbn [fst snd].
    rewrite calls_app, sleeps_app, calls_retryEvents, sleeps_retryEvents,
      calls_last, sleeps_last.
    split; [reflexivity|]. split; [lia|]. split; [lia|]. by eexists. }
  split; [|exact Hstop]. split.
  - intros Hr.
    destruct (decide (k < maxRetries)) as [Hlt|Hge].
    + destruct (isRetryable error) eqn:Hm.
      * apply isRetryable_matches in Hm. done.
      * apply isRetryable_false in Hm. exfalso.
        apply (stopped_not_retried run.2 k); [apply Hstop; tauto | done].
    + exfalso.
      apply (stopped_not_retried run.2 k); [apply Hstop; tauto | done].
  - intros [Hlt Hm]. by apply (generate_retried k error).
Qed.

End GeneratorFacts.

(** [new Error("503 Service Unavailable")] matches, [Invalid API key] does
    not. *)
Lemma unavailable_matches : matchesRetryPattern Sample.unavailable.
Proof. apply isRetryable_matches. compute_eq. Qed.

Lemma invalidKey_no_match : ~ matchesRetryPattern Sample.invalidKey.
Proof. apply isRetryable_false. compute_eq. Qed.

Lemma flaky_first i : i < 1 -> failsRetryably (Sample.flaky i).
Proof.
  intros Hi. assert (i = 0) as -> by lia.
  exists Sample.unavailable. split; [done | apply unavailable_matches].
Qed.

Lemma retry_decision_witness :
  configured Sample.key /\ 1 <= maxRetries
  /\ (forall i, i < 1 -> failsRetryably (Sample.flaky i))
  /\ attemptOnce (Sample.flaky 1) = Throw Sample.invalidKey
  /\ ((retriedAfter
         (generateExcelEditCode Sample.noJson Sample.key Sample.flaky).2 1
       <-> 1 < maxRetries /\ matchesRetryPattern Sample.invalidKey)
      /\ (~ (1 < maxRetries /\ matchesRetryPattern Sample.invalidKey) ->
          stoppedAt
            (generateExcelEditCode Sample.noJson Sample.key Sample.flaky).2 1
          /\ calls
               (generateExcelEditCode Sample.noJson Sample.key Sample.flaky).2
             = 2
          /\ sleeps
               (generateExcelEditCode Sample.noJson Sample.key Sample.flaky).2
             = 1
          /\ exists m,
               (generateExcelEditCode Sample.noJson Sample.key Sample.flaky).1
               = Throw m)).
Proof.
  assert (configured Sample.key) as Hkey by (by eexists _, _).
  assert (1 <= maxRetries) as Hk by (unfold maxRetries; lia).
  split; [exact Hkey|]. split; [exact Hk|].
  split; [exact flaky_first|]. split; [reflexivity|].
  exact (retry_decision Sample.noJson Sample.key Sample.flaky 1
           Sample.invalidKey Hkey Hk flaky_first eq_refl).
Defined.

(** ** Empty responses and exhausted retries *)

Lemma emptyResponse_no_match : ~ matchesRetryPattern (newError emptyResponse).
Proof. apply isRetryable_false. compute_eq. Qed.

Lemma overload_quota_distinct : overloadMessage <> quotaMessage.
Proof. compute_neq. Qed.

Section GeneratorOutcomes.

Variable jsonErrorMessage : jsstring -> option jsstring.
Variable apiKey : option jsstring.
Variable service : nat -> ServiceOutcome.

Lemma finalError_emptyResponse :
  finalError jsonErrorMessage (Some (newError emptyResponse))
  = utf16 "エラー: AIからの応答が空です。".
Proof. compute_eq. Qed.

(** C10. When the call of attempt [k] resolves with a missing or empty
    text, that call is the last event: no sleep and no call follow it, and
    the function throws the empty-response error. The error thrown inside
    [try] matches none of the retry patterns, so this holds at every
    attempt, below the ceiling too. *)
Theorem empty_response_stops k text :
  configured apiKey -> k <= maxRetries ->
  (forall i, i < k -> failsRetryably (service i)) ->
  service k = Resolved text -> text = None \/ text = Some [] ->
  ~ matchesRetryPattern (newError emptyResponse)
  /\ generateExcelEditCode jsonErrorMessage apiKey service
     = (Throw (utf16 "エラー: AIからの応答が空です。"),
        retryEvents 0 k ++ [Call k])
  /\ calls (generateExcelEditCode jsonErrorMessage apiKey service).2 = S k
  /\ sleeps (generateExcelEditCode jsonErrorMessage apiKey service).2 = k.
Proof.
  intros Hkey Hk Hfail Hs Ht.
  assert (attemptOnce (service k) = Throw (newError emptyResponse)) as He.
  { rewrite Hs. destruct Ht as [-> | ->]; reflexivity. }
  pose proof emptyResponse_no_match as Hn.
  split; [exact Hn|].
  assert (~ (k < maxRetries /\ matchesRetryPattern (newError emptyResponse)))
    as Hc by (intros [_ Hc]; exact (Hn Hc)).
  rewrite (generate_stopped jsonErrorMessage apiKey service k _
             Hkey Hk Hfail He Hc).
  rewrite finalError_emptyResponse. cbn [snd].
  rewrite calls_app, sleeps_app, calls_retryEvents, sleeps_retryEvents,
    calls_last, sleeps_last.
  split; [reflexivity|]. split; lia.
Qed.

(** When every call fails with a matching error, the ninth call is the
    last one and the function throws. *)
Lemma exhausted_after_nine_calls :
  configured apiKey ->
  (forall i, i <= maxRetries -> failsRetryably (service i)) ->
  exists error,
    attemptOnce (service maxRetries) = Throw error
    /\ generateExcelEditCode jsonErrorMessage apiKey service
       = (Throw (finalError jsonErrorMessage (Some error)),
          retryEvents 0 maxRetries ++ [Call maxRetries])
    /\ calls (generateExcelEditCode jsonErrorMessage apiKey service).2 = 9.
Proof.
  intros Hkey Hfail.
  destruct (Hfail maxRetries) as (error & He & _); [done|].
  exists error. split; [exact He|].
  rewrite (generate_stopped jsonErrorMessage apiKey service maxRetries error).
  - split; [reflexivity|]. cbn [snd].
    by rewrite calls_app, calls_retryEvents, calls_last.
  - exact Hkey.
  - done.
  - intros i Hi. apply Hfail. lia.
  - exact He.
  - intros [Hlt _]. lia.
Qed.

(** The final classification looks at the message text only. *)
Lemma classify_overload m :
  occurs (utf16 "overloaded") (toLowerCase m) \/ occurs (utf16 "503") m
  \/ occurs (utf16 "UNAVAILABLE") m ->
  classify m = overloadMessage.
Proof.
  intros H. unfold classify.
  rewrite <- !includes_occurs, <- !orb_true_iff, orb_assoc in H.
  by rewrite H.
Qed.

Lemma classify_quota m :
  ~ (occurs (utf16 "overloaded") (toLowerCase m) \/ occurs (utf16 "503") m
     \/ occurs (utf16 "UNAVAILABLE") m) ->
  occurs (utf16 "429") m \/ occurs (utf16 "RESOURCE_EXHAUSTED") m ->
  classify m = quotaMessage.
Proof.
  intros Hn H. unfold classify.
  rewrite <- !includes_occurs, <- !orb_true_iff in H.
  rewrite <- !includes_occurs, <- !orb_true_iff, orb_assoc in Hn.
  apply not_true_is_false in Hn. by rewrite Hn, H.
Qed.

Lemma classify_other m :
  ~ (occurs (utf16 "overloaded") (toLowerCase m) \/ occurs (utf16 "503") m
     \/ occurs (utf16 "UNAVAILABLE") m) ->
  ~ (occurs (utf16 "429") m \/ occurs (utf16 "RESOURCE_EXHAUSTED") m) ->
  classify m = utf16 "エラー: " ++ m.
Proof.
  intros Hn H. unfold classify.
  rewrite <- !includes_occurs, <- !orb_true_iff in H.
  rewrite <- !includes_occurs, <- !orb_true_iff, orb_assoc in Hn.
  apply not_true_is_false in Hn, H. by rewrite Hn, H.
Qed.

(** C6 on the code. Every call is rejected with an error whose status is
    [RESOURCE_EXHAUSTED] and whose message is [Quota exceeded]: the error
    matches the retry patterns, nine calls are made, and the error thrown
    carries the generic message, not the quota message. *)
Theorem quota_by_status_generic_message :
  matchesRetryPattern Sample.quotaByStatus
  /\ generateExcelEditCode jsonErrorMessage Sample.key
       (fun _ => Rejected Sample.quotaByStatus)
     = (Throw (utf16 "エラー: Quota exceeded"), retryEvents 0 8 ++ [Call 8])
  /\ utf16 "エラー: Quota exceeded" <> quotaMessage
  /\ utf16 "エラー: Quota exceeded" <> overloadMessage.
Proof.
  split; [apply isRetryable_matches; compute_eq|].
  split; [compute_eq|]. split; compute_neq.
Qed.

(** The same happens to a payload of the service once it is unwrapped: the
    code and status of the payload are dropped with it. *)
Lemma quota_payload_generic_message payload :
  payload = errorOpen ++ utf16 "{x}}" ->
  jsonErrorMessage payload = Some (utf16 "Quota exceeded") ->
  finalError jsonErrorMessage
    (Some (newError (utf16 "got status: 429. " ++ payload)))
  = utf16 "エラー: Quota exceeded".
Proof.
  intros -> H.
  set (m := utf16 "got status: 429. " ++ errorOpen ++ utf16 "{x}}").
  unfold finalError. change (getMessage (newError m)) with (Some m).
  assert (messageOr (Some m) (utf16 "不明なエラーが発生しました。") = m) as ->
    by compute_eq.
  unfold unwrapPayload.
  assert (includes errorKey m = true) as -> by compute_eq.
  assert (matchErrorObject m = Some (errorOpen ++ utf16 "{x}}")) as ->
    by compute_eq.
  rewrite H. compute_eq.
Qed.

End GeneratorOutcomes.

Lemma mute_first i : i < 1 -> failsRetryably (Sample.mute i).
Proof.
  intros Hi. assert (i = 0) as -> by lia.
  exists Sample.unavailable. split; [done | apply unavailable_matches].
Qed.

Lemma empty_response_stops_witness :
  configured Sample.key /\ 1 <= maxRetries
  /\ (forall i, i < 1 -> failsRetryably (Sample.mute i))
  /\ Sample.mute 1 = Resolved None
  /\ (@None jsstring = None \/ @None jsstring = Some [])
  /\ (~ matchesRetryPattern (newError emptyResponse)
      /\ generateExcelEditCode Sample.noJson Sample.key Sample.mute
         = (Throw (utf16 "エラー: AIからの応答が空です。"),
            retryEvents 0 1 ++ [Call 1])
      /\ calls (generateExcelEditCode Sample.noJson Sample.key Sample.mute).2 = 2
      /\ sleeps (generateExcelEditCode Sample.noJson Sample.key Sample.mute).2 = 1).
Proof.
  assert (configured Sample.key) as Hkey by (by eexists _, _).
  assert (1 <= maxRetries) as Hk by (unfold maxRetries; lia).
  split; [exact Hkey|]. split; [exact Hk|].
  split; [exact mute_first|]. split; [reflexivity|].
  split; [by left|].
  exact (empty_response_stops Sample.noJson Sample.key Sample.mute 1 None
           Hkey Hk mute_first eq_refl (or_introl eq_refl)).
Defined.

(** ** The executor *)

Import Pyodide.

Section ExecutorFacts.

Variable python : jsstring -> FS -> PyOutcome.

Lemma noOutput_not_executionError message :
  noOutputMessage <> executionError message.
Proof. compute_neq. Qed.

(** A script that raises makes the function throw the wrapped error,
    whatever files exist. *)
Lemma run_raised fs script inputFile message :
  py_raised (scriptRun python fs script inputFile) = Some message ->
  (runPythonTransformation python (Some fs) script inputFile).1.1
  = Throw (executionError message).
Proof. intros H. unfold runPythonTransformation. by rewrite H. Qed.

(** C1. When the script ends without raising and [output.xlsx] does not
    exist afterwards, the function throws the no-output error, which differs
    from every wrapped script error; when the script ends without raising
    and [output.xlsx] exists, the function returns its bytes as a blob. *)
Theorem run_output fs script inputFile :
  py_raised (scriptRun python fs script inputFile) = None ->
  (py_fs (scriptRun python fs script inputFile) !! "output.xlsx" = None ->
   (runPythonTransformation python (Some fs) script inputFile).1.1
   = Throw noOutputMessage)
  /\ (forall message, noOutputMessage <> executionError message)
  /\ (forall data,
       py_fs (scriptRun python fs script inputFile) !! "output.xlsx" = Some data ->
       (runPythonTransformation python (Some fs) script inputFile).1.1
       = Ok {| b_data := data; b_type := xlsxType |}).
Proof.
  intros Hok. unfold runPythonTransformation. rewrite Hok.
  split; [|split].
  - intros Hnone. unfold pathExists. rewrite Hnone.
    rewrite bool_decide_eq_false_2; [done | by intros [? ?]].
  - apply noOutput_not_executionError.
  - intros data Hsome. unfold pathExists, readFile. rewrite Hsome.
    by rewrite bool_decide_eq_true_2.
Qed.

(** C9. The script runs on the file system with the input written and
    [output.xlsx] removed, whatever was there before: a previous output is
    unlinked, and when there is none the error of [unlink] is swallowed and
    the script runs on the file system as it is. No other file is touched by
    the cleanup. *)
Theorem cleanup_before_run fs script inputFile :
  let prepared := writeFile "input.xlsx" (f_bytes inputFile) fs in
  scriptRun python fs script inputFile
  = python script (delete "output.xlsx" prepared)
  /\ delete "output.xlsx" prepared !! "output.xlsx" = None
  /\ (forall name, name <> "output.xlsx" ->
       delete "output.xlsx" prepared !! name = prepared !! name)
  /\ (fs !! "output.xlsx" = None ->
       (exists e, unlink "output.xlsx" prepared = Throw e)
       /\ scriptRun python fs script inputFile = python script prepared).
Proof.
  intros prepared. unfold scriptRun, cleanOutput, unlink. fold prepared.
  assert (prepared !! "output.xlsx" = fs !! "output.xlsx") as Hp.
  { unfold prepared, writeFile. by rewrite lookup_insert_ne. }
  split; [|split; [|split]].
  - destruct (prepared !! "output.xlsx") eqn:E; [done|].
    by rewrite delete_id.
  - apply lookup_delete_eq.
  - intros name Hname. by rewrite lookup_delete_ne.
  - intros Hnone. rewrite Hp, Hnone. split; [by eexists | done].
Qed.

(** A stale output is never handed back: a script that ends without
    raising and leaves the files as they are yields the no-output error. *)
Lemma stale_output_not_returned script inputFile :
  python script = (fun fs => {| py_fs := fs; py_stdout := []; py_raised := None |}) ->
  forall fs,
    (runPythonTransformation python (Some fs) script inputFile).1.1
    = Throw noOutputMessage.
Proof.
  intros H fs. unfold runPythonTransformation, scriptRun. rewrite H.
  cbn [py_raised py_fs py_stdout].
  assert (pathExists "output.xlsx"
            (cleanOutput (writeFile "input.xlsx" (f_bytes inputFile) fs))
          = false) as ->; [|done].
  unfold pathExists, cleanOutput, unlink.
  apply bool_decide_eq_false_2. intros Hsome.
  destruct (writeFile "input.xlsx" (f_bytes inputFile) fs !! "output.xlsx")
    eqn:E.
  - rewrite lookup_delete_eq in Hsome. by destruct Hsome.
  - rewrite E in Hsome. by destruct Hsome.
Qed.

End ExecutorFacts.

Lemma run_output_witness :
  py_raised (scriptRun Sample.saves Sample.stale [] Sample.book) = None
  /\ ((py_fs (scriptRun Sample.saves Sample.stale [] Sample.book)
         !! "output.xlsx" = None ->
       (runPythonTransformation Sample.saves (Some Sample.stale) []
          Sample.book).1.1 = Throw noOutputMessage)
      /\ (forall message, noOutputMessage <> executionError message)
      /\ (forall data,
           py_fs (scriptRun Sample.saves Sample.stale [] Sample.book)
             !! "output.xlsx" = Some data ->
           (runPythonTransformation Sample.saves (Some Sample.stale) []
              Sample.book).1.1
           = Ok {| b_data := data; b_type := xlsxType |})).
Proof.
  split; [reflexivity|].
  exact (run_output Sample.saves Sample.stale [] Sample.book eq_refl).
Defined.

Lemma cleanup_before_run_witness :
  let prepared := writeFile "input.xlsx" (f_bytes Sample.book) ∅ in
  scriptRun Sample.idles ∅ [] Sample.book
  = Sample.idles [] (delete "output.xlsx" prepared)
  /\ delete "output.xlsx" prepared !! "output.xlsx" = None
  /\ (forall name, name <> "output.xlsx" ->
       delete "output.xlsx" prepared !! name = prepared !! name)
  /\ ((∅ : FS) !! "output.xlsx" = None ->
       (exists e, unlink "output.xlsx" prepared = Throw e)
       /\ scriptRun Sample.idles ∅ [] Sample.book = Sample.idles [] prepared).
Proof. exact (cleanup_before_run Sample.idles ∅ [] Sample.book). Defined.

Example run_saves :
  (runPythonTransformation Sample.saves (Some Sample.stale) [] Sample.book).1.1
  = Ok {| b_data := [Byte.x50]; b_type := xlsxType |}.
Proof. compute_eq. Qed.

Example run_idles_stale :
  (runPythonTransformation Sample.idles (Some Sample.stale) [] Sample.book).1.1
  = Throw noOutputMessage.
Proof. compute_eq. Qed.

(** ** The pipeline *)

Import App.

Lemma noInstruction_true a1 :
  noInstruction a1 = true <-> a1 = [] \/ blank a1 \/ a1 = utf16 "None".
Proof.
  unfold noInstruction.
  rewrite !orb_true_iff, !bool_decide_eq_true, trim_nil. tauto.
Qed.

(** Runs the monadic code of a handler on an explicit state. *)
Ltac exec :=
  unfold tryCatch, forEach, liftResult, setStatus, addLog, setInputFile,
    setA1Instruction, setGeneratedCode, setOutputBlob, setErrorMsg,
    setRemainingUses, setItem, setInstance, record, modify, throw,
    mbind, M_bind, bind, mret, M_ret, ret;
  cbn.

Section PipelineFacts.

Variable jsonErrorMessage : jsstring -> option jsstring.
Variable python : jsstring -> FS -> PyOutcome.
Variable workbook : list Byte.byte -> jsstring * list jsstring.
Variable apiKey : option jsstring.
Variable service : nat -> ServiceOutcome.
Variable today : jsstring.

Let startTransformation :=
  App.startTransformation jsonErrorMessage python workbook apiKey service today.
Let processFile :=
  App.processFile jsonErrorMessage python workbook apiKey service today.
Let handleRetry :=
  App.handleRetry jsonErrorMessage python workbook apiKey service today.

(** Without an instruction [startTransformation] ends in [ERROR] right
    after the extraction. *)
Lemma startTransformation_no_instruction render file s :
  noInstruction (workbook (f_bytes file)).1 = true ->
  status (startTransformation render file s).2 = ERROR
  /\ journal (startTransformation render file s).2 = journal s ++ [Extracted]
  /\ localStorage (startTransformation render file s).2 = localStorage s
  /\ remainingUses (startTransformation render file s).2 = remainingUses s.
Proof.
  intros Hno. destruct s as [st lg inp a1 gen out err rem sto inst jr].
  unfold startTransformation, App.startTransformation, callExtract,
    extractA1AndColumns.
  destruct inst as [fs|]; exec.
  - destruct (workbook (f_bytes file)) as [a1' columns]. cbn in Hno.
    exec. rewrite Hno. by exec.
  - done.
Qed.

Lemma processFile_passes s file :
  (remainingUses s <=? 0)%Z = false ->
  processFile s file s = startTransformation s file (uploaded file s).
Proof. intros H. unfold processFile, App.processFile. by rewrite H. Qed.

Lemma handleRetry_runs s file :
  inputFile s = Some file ->
  handleRetry s s = startTransformation s file (retrying s).
Proof. intros H. unfold handleRetry, App.handleRetry. by rewrite H. Qed.

(** C2. When the instruction read from the uploaded file is empty, all
    white space or the text [None], the pipeline ends in [ERROR]; nothing
    beyond the extraction is called (no usage is consumed, the generator is
    not invoked), and the usage record and the remaining uses are as
    before. The same holds when the stored file is run again. *)
Theorem no_instruction_fails s file :
  (workbook (f_bytes file)).1 = []
  \/ blank (workbook (f_bytes file)).1
  \/ (workbook (f_bytes file)).1 = utf16 "None" ->
  (status (fire (fun render => processFile render file) s) = ERROR
   /\ (journal (fire (fun render => processFile render file) s) = journal s
       \/ journal (fire (fun render => processFile render file) s)
          = journal s ++ [Extracted])
   /\ localStorage (fire (fun render => processFile render file) s)
      = localStorage s
   /\ remainingUses (fire (fun render => processFile render file) s)
      = remainingUses s)
  /\ (inputFile s = Some file ->
      status (fire handleRetry s) = ERROR
      /\ journal (fire handleRetry s) = journal s ++ [Extracted]
      /\ localStorage (fire handleRetry s) = localStorage s
      /\ remainingUses (fire handleRetry s) = remainingUses s).
Proof.
  intros Hno. apply noInstruction_true in Hno. unfold fire. split.
  - destruct (remainingUses s <=? 0)%Z eqn:Hrem.
    + unfold processFile, App.processFile. rewrite Hrem.
      destruct s. exec. auto.
    + rewrite (processFile_passes s file Hrem).
      destruct (startTransformation_no_instruction s file (uploaded file s) Hno)
        as (-> & -> & -> & ->).
      auto.
  - intros Hfile. rewrite (handleRetry_runs s file Hfile).
    by destruct (startTransformation_no_instruction s file (retrying s) Hno)
      as (-> & -> & -> & ->).
Qed.

(** The gate of [processFile]: with no uses left nothing is called. *)
Lemma processFile_refuses s file :
  (remainingUses s <= 0)%Z ->
  status (fire (fun render => processFile render file) s) = ERROR
  /\ journal (fire (fun render => processFile render file) s) = journal s
  /\ localStorage (fire (fun render => processFile render file) s)
     = localStorage s.
Proof.
  intros Hle. apply Z.leb_le in Hle.
  unfold fire, processFile, App.processFile. rewrite Hle.
  destruct s. by exec.
Qed.

End PipelineFacts.

Lemma no_instruction_fails_witness :
  ((Sample.blankA1 (f_bytes Sample.book)).1 = []
   \/ blank (Sample.blankA1 (f_bytes Sample.book)).1
   \/ (Sample.blankA1 (f_bytes Sample.book)).1 = utf16 "None")
  /\ ((status (fire (fun render =>
                     processFile Sample.noJson Sample.saves Sample.blankA1
                       Sample.key Sample.up Sample.sunday render Sample.book)
                  Sample.lastUse) = ERROR
       /\ (journal (fire (fun render =>
                     processFile Sample.noJson Sample.saves Sample.blankA1
                       Sample.key Sample.up Sample.sunday render Sample.book)
                  Sample.lastUse) = journal Sample.lastUse
           \/ journal (fire (fun render =>
                     processFile Sample.noJson Sample.saves Sample.blankA1
                       Sample.key Sample.up Sample.sunday render Sample.book)
                  Sample.lastUse) = journal Sample.lastUse ++ [Extracted])
       /\ localStorage (fire (fun render =>
                     processFile Sample.noJson Sample.saves Sample.blankA1
                       Sample.key Sample.up Sample.sunday render Sample.book)
                  Sample.lastUse) = localStorage Sample.lastUse
       /\ remainingUses (fire (fun render =>
                     processFile Sample.noJson Sample.saves Sample.blankA1
                       Sample.key Sample.up Sample.sunday render Sample.book)
                  Sample.lastUse) = remainingUses Sample.lastUse)
      /\ (inputFile Sample.lastUse = Some Sample.book ->
          status (fire (handleRetry Sample.noJson Sample.saves Sample.blankA1 Sample.key
                   Sample.up Sample.sunday) Sample.lastUse) = ERROR
          /\ journal (fire (handleRetry Sample.noJson Sample.saves Sample.blankA1 Sample.key
                   Sample.up Sample.sunday) Sample.lastUse) = journal Sample.lastUse ++ [Extracted]
          /\ localStorage (fire (handleRetry Sample.noJson Sample.saves Sample.blankA1 Sample.key
                   Sample.up Sample.sunday) Sample.lastUse) = localStorage Sample.lastUse
          /\ remainingUses (fire (handleRetry Sample.noJson Sample.saves Sample.blankA1 Sample.key
                   Sample.up Sample.sunday) Sample.lastUse) = remainingUses Sample.lastUse)).
Proof.
  assert (blank (Sample.blankA1 (f_bytes Sample.book)).1) as Hb.
  { apply trim_nil. compute_eq. }
  split; [by right; left|].
  exact (no_instruction_fails Sample.noJson Sample.saves Sample.blankA1
           Sample.key Sample.up Sample.sunday Sample.lastUse Sample.book
           (or_intror (or_introl Hb))).
Defined.

(** C3 on the code. The last use of the day is spent on an upload that
    fails because the service is down; the retry button is shown; pressing
    it with no uses left consumes a use and invokes the generator, and the
    run completes. The usage record then counts 51 uses of 50. *)
Theorem retry_ignores_exhausted_quota :
  remainingUses Sample.afterUpload = 0%Z
  /\ status Sample.afterUpload = ERROR
  /\ inputFile Sample.afterUpload = Some Sample.book
  /\ isRetryableError (errorMsg Sample.afterUpload) = true
  /\ status Sample.afterRetry = COMPLETED
  /\ journal Sample.afterRetry
     = journal Sample.afterUpload
       ++ [Extracted; Consumed; Generated [Call 0]; Executed]
  /\ localStorage Sample.afterRetry = Usage Sample.sunday 51
  /\ remainingUses Sample.afterRetry = 0%Z.
Proof. repeat split; compute_eq. Qed.

(** ** The usage record *)

Lemma resets_app j1 j2 : resets (j1 ++ j2) = resets j1 + resets j2.
Proof. unfold resets. by rewrite List.filter_app, length_app. Qed.

(** On the day the record is of, neither a new session nor a consumption
    resets it. *)
Lemma act_same_day today s a count :
  localStorage s = Usage today count -> onDay today a ->
  (exists count', localStorage (act s a) = Usage today count')
  /\ resets (journal (act s a)) = resets (journal s).
Proof.
  intros Hs Ha. destruct a as [d|d]; simpl in Ha; subst d; unfold act, fire.
  - unfold loadUsage, mount. cbn [localStorage]. rewrite Hs.
    rewrite bool_decide_eq_true_2 by done. exec. by eauto.
  - unfold consumeUsage. destruct s. exec.
    split; [by eauto|].
    rewrite List.filter_app, length_app. simpl. lia.
Qed.

Lemma acts_same_day today actions s count :
  localStorage s = Usage today count -> Forall (onDay today) actions ->
  resets (journal (foldl act s actions)) = resets (journal s).
Proof.
  intros Hs Hall. revert s count Hs.
  induction Hall as [|a actions Ha _ IH]; intros s count Hs; [done|].
  destruct (act_same_day today s a count Hs Ha) as [[count' Hs'] Hr].
  simpl. by rewrite (IH _ count' Hs'), Hr.
Qed.

(** C8, as amended. A session that starts on [today] and finds the record
    of another day resets it to [{ today, 0 }] and has the full limit left;
    one that finds the record of [today] leaves it and has
    [max(0, limit - count)] left. Over any number of sessions and
    consumptions that all happen on [today], the record found from another
    day is reset once, by the first session. *)
Theorem usage_load today date count journal0 :
  (date <> today ->
   let s := act (mount (Usage date count) None journal0) (Reload today) in
   localStorage s = Usage today 0
   /\ remainingUses s = MAX_DAILY_USES
   /\ journal s = journal0 ++ [UsageReset])
  /\ (let s := act (mount (Usage today count) None journal0) (Reload today) in
      localStorage s = Usage today count
      /\ remainingUses s = Z.max 0 (MAX_DAILY_USES - count)
      /\ journal s = journal0)
  /\ (date <> today ->
      forall actions, Forall (onDay today) actions ->
      resets (journal (foldl act (mount (Usage date count) None journal0)
                             (Reload today :: actions)))
      = S (resets journal0)).
Proof.
  assert (date <> today ->
          let s := act (mount (Usage date count) None journal0) (Reload today) in
          localStorage s = Usage today 0
          /\ remainingUses s = MAX_DAILY_USES
          /\ journal s = journal0 ++ [UsageReset]) as Hreset.
  { intros Hd. unfold act, fire, loadUsage, mount. cbn [localStorage].
    rewrite bool_decide_eq_false_2 by done. by exec. }
  split; [exact Hreset|]. split.
  - unfold act, fire, loadUsage, mount. cbn [localStorage].
    rewrite bool_decide_eq_true_2 by done. by exec.
  - intros Hd actions Hall. destruct (Hreset Hd) as (Hs & _ & Hj).
    cbn [foldl]. rewrite (acts_same_day today actions _ 0%Z Hs Hall), Hj.
    rewrite resets_app. unfold resets at 2. simpl. lia.
Qed.

Lemma usage_load_witness :
  Sample.saturday <> Sample.sunday
  /\ Forall (onDay Sample.sunday) [Use Sample.sunday; Reload Sample.sunday]
  /\ (let s := act (mount (Usage Sample.saturday 3) None []) (Reload Sample.sunday) in
      localStorage s = Usage Sample.sunday 0
      /\ remainingUses s = MAX_DAILY_USES
      /\ journal s = [] ++ [UsageReset])
  /\ (let s := act (mount (Usage Sample.sunday 3) None []) (Reload Sample.sunday) in
      localStorage s = Usage Sample.sunday 3
      /\ remainingUses s = Z.max 0 (MAX_DAILY_USES - 3)
      /\ journal s = [])
  /\ resets (journal (foldl act (mount (Usage Sample.saturday 3) None [])
                            [Reload Sample.sunday; Use Sample.sunday;
                             Reload Sample.sunday]))
     = 1.
Proof.
  assert (Sample.saturday <> Sample.sunday) as Hd by compute_neq.
  assert (Forall (onDay Sample.sunday) [Use Sample.sunday; Reload Sample.sunday])
    as Hall by (by repeat constructor).
  destruct (usage_load Sample.sunday Sample.saturday 3 []) as (H1 & H2 & H3).
  split; [exact Hd|]. split; [exact Hall|].
  split; [exact (H1 Hd)|]. split; [exact H2|]. exact (H3 Hd _ Hall).
Defined.

(** C8 as stated fails for a session that is open over midnight: the day
    changes from Saturday to Sunday, the record is never reset, and the
    session started on Sunday has 46 uses left, not 50. *)
Lemma usage_not_reset_overnight :
  Sample.saturday <> Sample.sunday
  /\ resets (journal Sample.overnight) = 0
  /\ localStorage Sample.overnight = Usage Sample.sunday 4
  /\ remainingUses Sample.overnight = 46%Z
  /\ remainingUses Sample.overnight <> MAX_DAILY_USES.
Proof. repeat split; try compute_eq; compute_neq. Qed.

